(** * generate_icon.py: a shallow embedding and its verified properties

    The script [scripts/generate_icon.py] renders ten square PNG images
    (a blue square with the centred white text "0x"), writes them into an
    [.iconset] directory and calls [iconutil] to bundle them.

    The embedding follows the script function by function:
    - [Module Py]: the Python values the script computes with
      (exceptions, binary64 floats, decimal formatting, POSIX path
      joining);
    - [Module PIL]: the part of the Pillow image library the script
      calls (canvas allocation, fonts, text measurement and drawing);
    - [Module World]: the events of a run, the files on disk, and a
      record of oracles for what the operating system decides (which
      paths exist, whether a write succeeds, which fonts load, what
      [iconutil] returns), with the monad of computations that change
      the world and may raise;
    - [Module GenerateIcon]: the script itself ([ICON_SIZES],
      [find_monospace_font], [render_icon], [main]);
    - [Module Examples]: concrete fonts and machines to run it on;
    - [Module Spec]: what the specification says, in its own words (the
      rounded font size, the state machine, the naming convention);
    - [Module Trace]: the script as a pure function from the machine to
      the list of events, proved equal to the monadic one.

    The properties follow, grouped by the part of the script they are
    about. *)

From Stdlib Require Import ZArith QArith Qround Qabs Lia Lqa Bool List Zpower.
From Stdlib Require Import Ascii DecimalString Floats.SpecFloat.
From stdpp Require Import gmap strings list fin_maps.

Local Open Scope Z_scope.

(** ** Python runtime values *)

Module Py.

(** The exception classes the script can meet. [FileNotFoundError] and
    [PermissionError] are subclasses of [OSError]; [IOError] is an alias
    of [OSError]; [SystemExit] carries the exit status of [sys.exit]. *)
Inductive exn : Type :=
| OSError
| FileNotFoundError
| PermissionError
| AttributeError
| ImportError
| TypeError
| ValueError
| OverflowError
| ZeroDivisionError
| MemoryError
| SystemExit (code : Z).

(** [isinstance(e, OSError)] *)
Definition is_OSError (e : exn) : bool :=
  match e with
  | OSError | FileNotFoundError | PermissionError => true
  | _ => false
  end.

(** The result of evaluating an expression: a value or a raised
    exception. *)
Inductive result (A : Type) : Type :=
| Ok (a : A)
| Raise (e : exn).
Arguments Ok {A} a.
Arguments Raise {A} e.

#[export] Instance result_ret : MRet result := fun _ a => Ok a.
#[export] Instance result_bind : MBind result := fun _ _ k r =>
  match r with
  | Ok a => k a
  | Raise e => Raise e
  end.

(** *** binary64 floats

    Python's [float] is IEEE 754 binary64: [prec = 53], [emax = 1024],
    every operation rounded to nearest, ties to even. *)
Definition prec : Z := 53.
Definition emax : Z := 1024.

Abbreviation float := spec_float.

(** [float(z)] for an [int]: the nearest double, [OverflowError] when the
    integer is out of range. *)
Definition float_of_int (z : Z) : result float :=
  match binary_normalize prec emax z 0 false with
  | S754_infinity _ => Raise OverflowError
  | f => Ok f
  end.

(** A decimal literal [n/d] denotes the double nearest to it; the
    correctly rounded quotient of the two (exact) doubles is that
    double. *)
Definition float_literal (n d : Z) : float :=
  SFdiv prec emax (binary_normalize prec emax n 0 false)
                  (binary_normalize prec emax d 0 false).

(** [z * f] for an [int] and a [float]: the [int] is converted first. *)
Definition mul_int_float (z : Z) (f : float) : result float :=
  x ← float_of_int z; Ok (SFmul prec emax x f).

(** [int(f)]: truncation toward zero; [ValueError] on NaN and
    [OverflowError] on an infinity. *)
Definition int_of_float (f : float) : result Z :=
  match f with
  | S754_nan => Raise ValueError
  | S754_infinity _ => Raise OverflowError
  | S754_zero _ => Ok 0
  | S754_finite s m e =>
      Ok (cond_Zopp s (if 0 <=? e then Zpos m * 2 ^ e
                       else Zpos m / 2 ^ (- e)))
  end.

(** [round(f)] to an [int]: the nearest integer, ties to even. *)
Definition round_half_even (num den : Z) : Z :=
  let q := num / den in
  let r := num mod den in
  match 2 * r ?= den with
  | Lt => q
  | Gt => q + 1
  | Eq => if Z.even q then q else q + 1
  end.

Definition round_float (f : float) : result Z :=
  match f with
  | S754_nan => Raise ValueError
  | S754_infinity _ => Raise OverflowError
  | S754_zero _ => Ok 0
  | S754_finite s m e =>
      Ok (cond_Zopp s (if 0 <=? e then Zpos m * 2 ^ e
                       else round_half_even (Zpos m) (2 ^ (- e))))
  end.

(** [a / b] for two [int]s: true division. Below [2^53] both convert
    exactly and the result is the correctly rounded quotient. *)
Definition truediv (a b : Z) : result float :=
  if b =? 0 then Raise ZeroDivisionError
  else x ← float_of_int a; y ← float_of_int b; Ok (SFdiv prec emax x y).

(** [f - z] for a [float] and an [int]. *)
Definition sub_float_int (f : float) (z : Z) : result float :=
  y ← float_of_int z; Ok (SFsub prec emax f y).

(** The rational a finite double stands for. *)
Definition Q_of_float (f : float) : option Q :=
  match f with
  | S754_zero _ => Some 0%Q
  | S754_finite s m e =>
      Some (if 0 <=? e then inject_Z (cond_Zopp s (Zpos m) * 2 ^ e)
            else Qmake (cond_Zopp s (Zpos m)) (Z.to_pos (2 ^ (- e))))
  | _ => None
  end.

(** The double [f] is exactly [K / 2^h], and its exponent leaves room
    for the [h] fractional bits. *)
Definition exact_dyadic (f : float) (K h : Z) : Prop :=
  match f with
  | S754_zero _ => K = 0
  | S754_finite s a e =>
      Zpos (digits2_pos a) = prec
      /\ e + h <= 0
      /\ cond_Zopp s (Zpos a) = K * 2 ^ (- e - h)
  | _ => False
  end.

(** [int(q)] on an exactly representable value [q]: truncation toward
    zero. *)
Definition Qtrunc (q : Q) : Z :=
  if Qle_bool 0 q then Qfloor q else Qceiling q.

(** *** strings and paths *)

(** [str(z)] for an [int]. *)
Definition str (z : Z) : string := NilZero.string_of_int (Z.to_int z).

Definition endswith_sep (a : string) : bool :=
  match String.get (String.length a - 1)%nat a with
  | Some c => Ascii.eqb c "/"%char
  | None => false
  end.

(** One step of [posixpath.join]: an absolute component replaces what
    came before, otherwise the component is appended after a single
    separator. *)
Definition join1 (path b : string) : string :=
  if String.prefix "/" b then b
  else if String.eqb path "" || endswith_sep path then path +:+ b
  else path +:+ "/" +:+ b.

(** [os.path.join(a, *p)] *)
Definition path_join (a : string) (p : list string) : string :=
  fold_left join1 p a.

(** [bool(s)] for an optional string: [None] and [""] are falsy. *)
Definition truthy (s : option string) : bool :=
  match s with
  | None => false
  | Some s => negb (String.eqb s "")
  end.

End Py.

Import Py.


(** ** The image library (Pillow), as far as the script uses it *)

Module PIL.

(** A pixel of an RGBA raster. *)
Definition rgba : Type := Z * Z * Z * Z.

(** A colour given as an RGB triple, as the script's constants are. *)
Definition rgb : Type := Z * Z * Z.

(** The ink an RGB triple denotes in an image with an alpha channel:
    full opacity. *)
Definition ink (c : rgb) : rgba :=
  let '(r, g, b) := c in (r, g, b, 255).

(** A raster image: its mode, its size (width, height) and its pixel
    contents. *)
Record image : Type := {
  im_mode : string;
  im_size : Z * Z;
  im_px : Z -> Z -> rgba
}.

Definition width (img : image) : Z := fst (im_size img).
Definition height (img : image) : Z := snd (im_size img).

(** [Image.new(mode, size, color)]: a canvas filled with [color];
    a negative width or height is a [ValueError]. *)
Definition Image_new (mode : string) (size : Z * Z) (color : rgb)
  : result image :=
  let '(w, h) := size in
  if (w <? 0) || (h <? 0) then Raise ValueError
  else Ok {| im_mode := mode; im_size := (w, h);
             im_px := fun _ _ => ink color |}.

(** [img.getpixel((x, y))]; outside the canvas there is no pixel. *)
Definition getpixel (img : image) (xy : Z * Z) : option rgba :=
  let '(x, y) := xy in
  if (0 <=? x) && (x <? width img) && (0 <=? y) && (y <? height img)
  then Some (im_px img x y) else None.

(** A font loaded at a size. For a text it gives
    - [font_bbox]: the glyph bounding box (left, top, right, bottom) of
      the text drawn at the origin, which need not start at (0, 0);
    - [font_mask]: the coverage, 0 to 255, of the pixel at a position
      relative to the origin by the strokes of the text. *)
Record font : Type := {
  font_bbox : string -> Z * Z * Z * Z;
  font_mask : string -> Z -> Z -> Z
}.

(** [draw.textbbox(xy, text, font=font)]: the font's box moved to [xy]. *)
Definition textbbox (xy : Q * Q) (text : string) (f : font)
  : Q * Q * Q * Q :=
  let '(l, t, r, b) := font_bbox f text in
  (inject_Z l + fst xy, inject_Z t + snd xy,
   inject_Z r + fst xy, inject_Z b + snd xy)%Q.

(** The pixel at which [draw.text] anchors the glyph bitmap: the integer
    part of each coordinate. *)
Definition pixel_origin (xy : Q * Q) : Z * Z :=
  (Qtrunc (fst xy), Qtrunc (snd xy)).


(** Compositing of the fill over a pixel with coverage [a]. *)
Definition blend (a : Z) (under over : rgba) : rgba :=
  let mix u o := (u * (255 - a) + o * a) / 255 in
  let '(ur, ug, ub, ua) := under in
  let '(or_, og, ob, oa) := over in
  (mix ur or_, mix ug og, mix ub ob, mix ua oa).

(** [draw.text(xy, text, fill=fill, font=font)] on the image the
    drawing context was made for. The context shares the image, so the
    call changes the image itself; here it gives the changed image.
    Pixels no stroke touches keep their value. *)
Definition ImageDraw_text (img : image) (xy : Q * Q) (text : string)
    (fill : rgb) (f : font) : image :=
  let '(ox, oy) := pixel_origin xy in
  {| im_mode := im_mode img;
     im_size := im_size img;
     im_px := fun i j =>
       let a := font_mask f text (i - ox) (j - oy) in
       if a =? 0 then im_px img i j
       else blend a (im_px img i j) (ink fill) |}.


(** A font is well formed for a text when its strokes stay inside its
    bounding box. *)
Definition mask_in_bbox (f : font) (text : string) : Prop :=
  forall i j, font_mask f text i j <> 0 ->
    let '(l, t, r, b) := font_bbox f text in
    l <= i < r /\ t <= j < b.

End PIL.

Import PIL.

(** ** The world the script runs in *)

Module World.

(** What the script does to the outside, in the order it happens. *)
Inductive event : Type :=
| EMakedirs (path : string)
| EWrite (path : string) (img : image)
| EStdout (line : string)
| EStderr (line : string)
| ERun (argv : list string) (returncode : Z) (err : string).

(** The files of the icon set on disk and the record of what was done. *)
Record world : Type := {
  files : gmap string image;
  log : list event
}.

(** What the operating system and the installed fonts decide:
    - [path_exists]: [os.path.exists];
    - [makedirs_error]: the error of [os.makedirs(_, exist_ok=True)],
      if any;
    - [write_error]: the error of opening a file for writing, if any;
    - [truetype]: [ImageFont.truetype(path, size)], which loads a font
      or raises;
    - [load_default]: [ImageFont.load_default()], the built-in font,
      measured and drawn like a loaded one;
    - [iconutil]: the exit code and captured standard error of the
      packaging tool, or the error of starting it;
    - [project_root]: the parent of the directory the script is in. *)
Record env : Type := {
  path_exists : string -> bool;
  makedirs_error : string -> option exn;
  write_error : string -> option exn;
  truetype : option string -> Z -> result font;
  load_default : font;
  iconutil : list string -> result (Z * string);
  project_root : string
}.

(** Computations that change the world and may raise. *)
Definition IO (A : Type) : Type := world -> world * result A.

#[export] Instance IO_ret : MRet IO := fun _ a w => (w, Ok a).
#[export] Instance IO_bind : MBind IO := fun _ _ k c w =>
  match c w with
  | (w', Ok a) => k a w'
  | (w', Raise e) => (w', Raise e)
  end.

Definition lift {A} (r : result A) : IO A := fun w => (w, r).

Definition emit (e : event) : IO unit := fun w =>
  ({| files := files w; log := log w ++ [e] |}, Ok tt).

(** [print(line)] and [print(line, file=sys.stderr)] *)
Definition print (line : string) : IO unit := emit (EStdout line).
Definition print_err (line : string) : IO unit := emit (EStderr line).

(** [os.makedirs(path, exist_ok=True)] *)
Definition makedirs (E : env) (path : string) : IO unit :=
  match makedirs_error E path with
  | Some e => lift (Raise e)
  | None => emit (EMakedirs path)
  end.

(** [img.save(path, "PNG")]: the file is created or replaced. *)
Definition save (E : env) (img : image) (path : string) : IO unit :=
  match write_error E path with
  | Some e => lift (Raise e)
  | None => fun w =>
      ({| files := <[path := img]> (files w);
          log := log w ++ [EWrite path img] |}, Ok tt)
  end.

(** [subprocess.run(argv, capture_output=True, text=True)] for the
    packaging tool: its exit code and standard error. *)
Definition subprocess_run (E : env) (argv : list string)
  : IO (Z * string) :=
  match iconutil E argv with
  | Raise e => lift (Raise e)
  | Ok (rc, err) => fun w =>
      ({| files := files w; log := log w ++ [ERun argv rc err] |},
       Ok (rc, err))
  end.

(** [sys.exit(code)] *)
Definition sys_exit (code : Z) : IO unit := lift (Raise (SystemExit code)).

(** [for x in l: body(x)] *)
Fixpoint for_each {A} (l : list A) (body : A -> IO unit) : IO unit :=
  match l with
  | [] => mret tt
  | x :: rest => body x ≫= fun _ => for_each rest body
  end.

(** The exit status of the process: 0 when [main] returns, the code of
    [sys.exit], 1 for any other exception left uncaught. *)
Definition exit_status (r : result unit) : Z :=
  match r with
  | Ok _ => 0
  | Raise (SystemExit code) => code
  | Raise _ => 1
  end.

End World.

Import World.

(** ** The script *)

Module GenerateIcon.

Definition ICON_SIZES : list (string * Z) :=
  [ ("icon_16x16.png", 16);
    ("icon_16x16@2x.png", 32);
    ("icon_32x32.png", 32);
    ("icon_32x32@2x.png", 64);
    ("icon_128x128.png", 128);
    ("icon_128x128@2x.png", 256);
    ("icon_256x256.png", 256);
    ("icon_256x256@2x.png", 512);
    ("icon_512x512.png", 512);
    ("icon_512x512@2x.png", 1024) ].

Definition BG_COLOR : rgb := (0, 0, 170).
Definition TEXT_COLOR : rgb := (255, 255, 255).

Definition candidates : list string :=
  [ "/System/Library/Fonts/SFMono-Bold.otf";
    "/System/Library/Fonts/Menlo.ttc";
    "/System/Library/Fonts/Monaco.dfont";
    "/Library/Fonts/Courier New Bold.ttf";
    "/System/Library/Fonts/Courier.dfont" ].

(** The loop of [find_monospace_font]: return the first path that
    exists, [None] when the list is exhausted. *)
Fixpoint first_existing (exists_ : string -> bool) (paths : list string)
  : option string :=
  match paths with
  | [] => None
  | path :: rest =>
      if exists_ path then Some path else first_existing exists_ rest
  end.

Definition find_monospace_font (E : env) : option string :=
  first_existing (path_exists E) candidates.

(** [font_size = max(int(size * 0.45), 8)] *)
Definition font_size (size : Z) : result Z :=
  scaled ← mul_int_float size (float_literal 45 100);
  n ← int_of_float scaled;
  Ok (Z.max n 8).

(** [try: truetype(font_path, font_size)
     except (OSError, IOError): load_default()] *)
Definition load_font (E : env) (font_path : option string) (fsize : Z)
  : result font :=
  match truetype E font_path fsize with
  | Ok f => Ok f
  | Raise e => if is_OSError e then Ok (load_default E) else Raise e
  end.

Definition text : string := "0x".

(** The draw origin computed from the canvas size and the measured box:
    [x = (size - text_w) / 2 - bbox[0]], [y] likewise. The division is
    Python's true division; halves of integers are exact doubles, so
    the value is the rational itself ([draw_origin_binary64] below is
    the computation on doubles, proved equal to it). *)
Definition draw_origin (size : Z) (bbox : Q * Q * Q * Q) : Q * Q :=
  let '(b0, b1, b2, b3) := bbox in
  let text_w := (b2 - b0)%Q in
  let text_h := (b3 - b1)%Q in
  let x := ((inject_Z size - text_w) / 2 - b0)%Q in
  let y := ((inject_Z size - text_h) / 2 - b1)%Q in
  (x, y).

(** The same origin computed in binary64, as Python does, from a box of
    integers. *)
Definition draw_origin_binary64 (size : Z) (bbox : Z * Z * Z * Z)
  : result (float * float) :=
  let '(b0, b1, b2, b3) := bbox in
  let text_w := b2 - b0 in
  let text_h := b3 - b1 in
  x ← (half ← truediv (size - text_w) 2; sub_float_int half b0);
  y ← (half ← truediv (size - text_h) 2; sub_float_int half b1);
  Ok (x, y).

Definition render_icon (E : env) (size : Z) (font_path : option string)
  : result image :=
  img ← Image_new "RGBA" (size, size) BG_COLOR;
  fsize ← font_size size;
  f ← load_font E font_path fsize;
  let bbox := textbbox (0, 0)%Q text f in
  let xy := draw_origin size bbox in
  Ok (ImageDraw_text img xy text TEXT_COLOR f).

Definition resources_dir (E : env) : string :=
  path_join (project_root E) ["Sources"; "BlueScreenOfDeath"; "Resources"].
Definition iconset_dir (E : env) : string :=
  path_join (resources_dir E) ["AppIcon.iconset"].
Definition icns_path (E : env) : string :=
  path_join (resources_dir E) ["AppIcon.icns"].

Definition iconutil_argv (E : env) : list string :=
  ["iconutil"; "-c"; "icns"; iconset_dir E; "-o"; icns_path E].

(** The body of the loop over [ICON_SIZES]. *)
Definition generate_one (E : env) (font_path : option string)
    (entry : string * Z) : IO unit :=
  let '(filename, size) := entry in
  img ← lift (render_icon E size font_path);
  let out_path := path_join (iconset_dir E) [filename] in
  save E img out_path;;
  print ("  Generated " +:+ filename +:+ " (" +:+ str size +:+ "x"
         +:+ str size +:+ ")").

(** The batch generation step: the loop of [main]. *)
Definition generate_all (E : env) (font_path : option string)
    (sizes : list (string * Z)) : IO unit :=
  for_each sizes (generate_one E font_path).

(** The packaging step: the end of [main]. *)
Definition package (E : env) : IO unit :=
  print ("  Creating " +:+ icns_path E);;
  '(returncode, err) ← subprocess_run E (iconutil_argv E);
  (if negb (returncode =? 0)
   then print_err ("Error running iconutil: " +:+ err);; sys_exit 1
   else mret tt);;
  print ("  App icon created: " +:+ icns_path E).

Definition main (E : env) : IO unit :=
  makedirs E (iconset_dir E);;
  let font_path := find_monospace_font E in
  (if negb (truthy font_path)
   then print_err "Warning: No monospace font found, using default"
   else mret tt);;
  generate_all E font_path ICON_SIZES;;
  package E.

(** A run of the program on a disk holding [fs]. *)
Definition run (E : env) (fs : gmap string image) : world * result unit :=
  main E {| files := fs; log := [] |}.

End GenerateIcon.

Import GenerateIcon.

(** ** Concrete fonts and machines, to run the script on *)

Module Examples.

(** A monospace face at a pixel size: each character fills a cell
    [6/10] of the size wide; the box starts one pixel right of the
    origin and a quarter of the size below it. *)
Definition mono_bbox (fsize : Z) (t : string) : Z * Z * Z * Z :=
  (1, fsize / 4, 1 + Z.of_nat (String.length t) * (6 * fsize / 10), fsize).

Definition in_box (box : Z * Z * Z * Z) (i j : Z) : bool :=
  let '(l, t, r, b) := box in
  (l <=? i) && (i <? r) && (t <=? j) && (j <? b).

Definition mono_font (fsize : Z) : font :=
  {| font_bbox := mono_bbox fsize;
     font_mask := fun t i j => if in_box (mono_bbox fsize t) i j then 255 else 0 |}.

(** The built-in bitmap font: 6 by 11 pixel cells. *)
Definition builtin_font : font :=
  {| font_bbox := fun t => (0, 0, 6 * Z.of_nat (String.length t), 11);
     font_mask := fun t i j =>
       if in_box (0, 0, 6 * Z.of_nat (String.length t), 11) i j then 255 else 0 |}.

(** Font loading as the library does it: a path that does not name a
    readable font file is an [OSError]; [None] is not a path and not a
    file object, which is an [AttributeError]. *)
Definition truetype_with (installed : string -> bool)
    (path : option string) (fsize : Z) : result font :=
  match path with
  | None => Raise AttributeError
  | Some p => if installed p then Ok (mono_font fsize) else Raise OSError
  end.

Definition is_menlo (p : string) : bool :=
  String.eqb p "/System/Library/Fonts/Menlo.ttc".

(** A Mac with Menlo installed and a working [iconutil]. *)
Definition mac : env :=
  {| path_exists := is_menlo;
     makedirs_error := fun _ => None;
     write_error := fun _ => None;
     truetype := truetype_with is_menlo;
     load_default := builtin_font;
     iconutil := fun _ => Ok (0, "");
     project_root := "/repo" |}.

(** The same machine with an [iconutil] that rejects the icon set. *)
Definition mac_bad_tool : env :=
  {| path_exists := is_menlo;
     makedirs_error := fun _ => None;
     write_error := fun _ => None;
     truetype := truetype_with is_menlo;
     load_default := builtin_font;
     iconutil := fun _ => Ok (1, "bad format");
     project_root := "/repo" |}.



(** A machine with none of the candidate fonts. *)
Definition no_fonts : env :=
  {| path_exists := fun _ => false;
     makedirs_error := fun _ => None;
     write_error := fun _ => None;
     truetype := truetype_with (fun _ => false);
     load_default := builtin_font;
     iconutil := fun _ => Ok (0, "");
     project_root := "/repo" |}.

(** A machine whose disk fills up at the third image. *)
Definition mac_disk_full : env :=
  {| path_exists := is_menlo;
     makedirs_error := fun _ => None;
     write_error := fun p =>
       if String.eqb p "/repo/Sources/BlueScreenOfDeath/Resources/AppIcon.iconset/icon_32x32.png"
       then Some OSError else None;
     truetype := truetype_with is_menlo;
     load_default := builtin_font;
     iconutil := fun _ => Ok (0, "");
     project_root := "/repo" |}.

Definition menlo : string := "/System/Library/Fonts/Menlo.ttc".

(** Does the origin computed in binary64 equal the rational origin, for
    a canvas size and a font? *)
Definition origin_is_exact (size : Z) (f : font) : bool :=
  let '(l, t, r, b) := font_bbox f "0x" in
  let '(x, y) := draw_origin size (textbbox (0, 0)%Q "0x" f) in
  match draw_origin_binary64 size (l, t, r, b) with
  | Ok (fx, fy) =>
      match Q_of_float fx, Q_of_float fy with
      | Some qx, Some qy => Qeq_bool qx x && Qeq_bool qy y
      | _, _ => false
      end
  | Raise _ => false
  end.

(** The 16 pixel icon drawn with [mono_font] at size 8, and with the
    built-in font. *)
Definition icon_16_mono : image :=
  ImageDraw_text
    {| im_mode := "RGBA"; im_size := (16, 16);
       im_px := fun _ _ => (0, 0, 170, 255) |}
    (3, 3)%Q "0x" (255, 255, 255) (mono_font 8).

Definition icon_16_builtin : image :=
  ImageDraw_text
    {| im_mode := "RGBA"; im_size := (16, 16);
       im_px := fun _ _ => (0, 0, 170, 255) |}
    (2, 5 # 2)%Q "0x" (255, 255, 255) builtin_font.

(** A machine with the fonts and the disk of the Mac but no [iconutil]
    to start. *)
Definition mac_no_iconutil : env :=
  {| path_exists := is_menlo;
     makedirs_error := fun _ => None;
     write_error := fun _ => None;
     truetype := truetype_with is_menlo;
     load_default := builtin_font;
     iconutil := fun _ => Raise FileNotFoundError;
     project_root := "/repo" |}.

End Examples.

Import Examples.

(** ** What the specification says, for comparison with the script *)

Module Spec.

(** The font size as the specification words it:
    [max(round(dimension * 0.45), 8)]. *)
Definition font_size_rounded (dimension : Z) : result Z :=
  scaled ← mul_int_float dimension (float_literal 45 100);
  n ← round_float scaled;
  Ok (Z.max n 8).

(** The whole-program state machine. *)
Inductive phase : Type :=
| Start
| DirectoryPrepared
| ImagesWritten
| BundleInvoked
| Success
| FatalFailure.



Definition size_eqb (a b : Z * Z) : bool :=
  (fst a =? fst b) && (snd a =? snd b).

(** The machine watching one event. Its state is the phase and the
    entries of the size list not yet written. Diagnostics are not
    transitions. An event the machine has no transition for is refused:
    - the directory is made once, from [Start];
    - an image is written only in [DirectoryPrepared], and it must be
      the next entry of the list, under its name and with its size; the
      last one leads to [ImagesWritten];
    - the tool is run only in [ImagesWritten]. *)
Definition observe (E : env) (st : phase * list (string * Z)) (e : event)
  : option (phase * list (string * Z)) :=
  let '(p, pending) := st in
  match e with
  | EStdout _ | EStderr _ => Some st
  | EMakedirs d =>
      match p with
      | Start =>
          if String.eqb d (iconset_dir E) then Some (DirectoryPrepared, pending)
          else None
      | _ => None
      end
  | EWrite path img =>
      match p, pending with
      | DirectoryPrepared, (filename, size) :: rest =>
          if String.eqb path (path_join (iconset_dir E) [filename])
             && size_eqb (im_size img) (size, size)
          then Some (match rest with
                     | [] => ImagesWritten
                     | _ => DirectoryPrepared
                     end, rest)
          else None
      | _, _ => None
      end
  | ERun argv _ _ =>
      match p with
      | ImagesWritten =>
          if decide (argv = iconutil_argv E) then Some (BundleInvoked, pending)
          else None
      | _ => None
      end
  end.

Fixpoint observe_all (E : env) (st : phase * list (string * Z))
    (events : list event) : option (phase * list (string * Z)) :=
  match events with
  | [] => Some st
  | e :: rest =>
      match observe E st e with
      | Some st' => observe_all E st' rest
      | None => None
      end
  end.


(** The files on disk after the writes of a log, oldest first. *)
Definition apply_writes (events : list event) (fs : gmap string image)
  : gmap string image :=
  fold_left (fun m e =>
               match e with
               | EWrite path img => <[path := img]> m
               | _ => m
               end) events fs.

(** The names and sizes of the files a log wrote. *)
Definition written (events : list event) : list (string * (Z * Z)) :=
  omap (fun e => match e with
                 | EWrite path img => Some (path, im_size img)
                 | _ => None
                 end) events.

Definition runs (events : list event) : list (list string * Z * string) :=
  omap (fun e => match e with
                 | ERun argv rc err => Some (argv, rc, err)
                 | _ => None
                 end) events.

(** The lines a log printed on standard output. *)
Definition stdout_lines (events : list event) : list string :=
  omap (fun e => match e with
                 | EStdout line => Some line
                 | _ => None
                 end) events.

(** The naming convention of an icon set: [icon_NxN.png] is the image
    for N points at scale 1, [icon_NxN@2x.png] the one at scale 2. *)
Definition is_digit (c : ascii) : bool :=
  (48 <=? Z.of_nat (nat_of_ascii c)) && (Z.of_nat (nat_of_ascii c) <=? 57).

Fixpoint span_digits (s : string) : list ascii * string :=
  match s with
  | String c rest =>
      if is_digit c then
        let '(ds, tl) := span_digits rest in (c :: ds, tl)
      else ([], s)
  | EmptyString => ([], s)
  end.

Definition decimal (ds : list ascii) : option Z :=
  match ds with
  | [] => None
  | _ => Some (fold_left (fun n c => 10 * n + (Z.of_nat (nat_of_ascii c) - 48))
                         ds 0)
  end.

Fixpoint strip_prefix (p s : string) : option string :=
  match p, s with
  | EmptyString, _ => Some s
  | String a p', String b s' =>
      if Ascii.eqb a b then strip_prefix p' s' else None
  | String _ _, EmptyString => None
  end.

(** The points and the scale a file name states, when it has the form
    [icon_NxN.png] or [icon_NxN@2x.png]. *)
Definition parse_icon_name (name : string) : option (Z * Z) :=
  s ← strip_prefix "icon_" name;
  let '(w, s) := span_digits s in
  s ← strip_prefix "x" s;
  let '(h, s) := span_digits s in
  n ← decimal w;
  m ← decimal h;
  if negb (n =? m) then None
  else if String.eqb s ".png" then Some (n, 1)
  else if String.eqb s "@2x.png" then Some (n, 2)
  else None.

(** The pixel dimension a file name stands for. *)
Definition named_dimension (name : string) : option Z :=
  '(n, scale) ← parse_icon_name name;
  Some (n * scale).

End Spec.

Import Spec.

(** ** The script as a pure function from the machine to what happens *)

Module Trace.

(** The canvas [render_icon] starts from. *)
Definition blank (size : Z) : image :=
  {| im_mode := "RGBA"; im_size := (size, size);
     im_px := fun _ _ => ink BG_COLOR |}.

(** A world after some more events. *)
Definition extend (w : world) (events : list event) : world :=
  {| files := apply_writes events (files w); log := log w ++ events |}.

Definition generated_line (filename : string) (size : Z) : string :=
  "  Generated " +:+ filename +:+ " (" +:+ str size +:+ "x" +:+ str size
  +:+ ")".

(** The events of the loop and how it ends. *)
Fixpoint batch_trace (E : env) (font_path : option string)
    (sizes : list (string * Z)) : list event * result unit :=
  match sizes with
  | [] => ([], Ok tt)
  | (filename, size) :: rest =>
      match render_icon E size font_path with
      | Raise e => ([], Raise e)
      | Ok img =>
          let out_path := path_join (iconset_dir E) [filename] in
          match write_error E out_path with
          | Some e => ([], Raise e)
          | None =>
              let '(events, r) := batch_trace E font_path rest in
              (EWrite out_path img :: EStdout (generated_line filename size)
                 :: events, r)
          end
      end
  end.

Definition creating_line (E : env) : string :=
  "  Creating " +:+ icns_path E.
Definition created_line (E : env) : string :=
  "  App icon created: " +:+ icns_path E.
Definition error_line (err : string) : string :=
  "Error running iconutil: " +:+ err.

(** The events of the packaging step and how it ends. *)
Definition package_trace (E : env) : list event * result unit :=
  match iconutil E (iconutil_argv E) with
  | Raise e => ([EStdout (creating_line E)], Raise e)
  | Ok (rc, err) =>
      if negb (rc =? 0)
      then ([EStdout (creating_line E); ERun (iconutil_argv E) rc err;
             EStderr (error_line err)], Raise (SystemExit 1))
      else ([EStdout (creating_line E); ERun (iconutil_argv E) rc err;
             EStdout (created_line E)], Ok tt)
  end.

Definition warning (E : env) : list event :=
  if negb (truthy (find_monospace_font E))
  then [EStderr "Warning: No monospace font found, using default"]
  else [].

(** The events of a whole run and how it ends. *)
Definition main_trace (E : env) : list event * result unit :=
  match makedirs_error E (iconset_dir E) with
  | Some e => ([], Raise e)
  | None =>
      let '(events, r) := batch_trace E (find_monospace_font E) ICON_SIZES in
      match r with
      | Raise e => (EMakedirs (iconset_dir E) :: warning E ++ events, Raise e)
      | Ok _ =>
          let '(pevents, pr) := package_trace E in
          (EMakedirs (iconset_dir E) :: warning E ++ events ++ pevents, pr)
      end
  end.

(** The last image a log wrote under a path. *)
Fixpoint last_write (events : list event) (path : string) : option image :=
  match events with
  | [] => None
  | e :: rest =>
      match last_write rest path with
      | Some img => Some img
      | None =>
          match e with
          | EWrite p img => if String.eqb p path then Some img else None
          | _ => None
          end
      end
  end.

(** The images the size list asks for: path and size, in list order. *)
Definition expected_outputs (E : env) (sizes : list (string * Z))
  : list (string * (Z * Z)) :=
  map (fun '(filename, size) =>
         (path_join (iconset_dir E) [filename], (size, size))) sizes.


End Trace.

Import Trace.

(** * Properties *)

(** ** binary64 arithmetic: rounding a product *)

Section Floats.

Lemma digits2_pos_bounds (p : positive) :
  2 ^ (Zpos (digits2_pos p) - 1) <= Zpos p < 2 ^ Zpos (digits2_pos p).
Proof.
  induction p as [p IH | p IH |]; cbn [digits2_pos].
  - rewrite Pos2Z.inj_succ.
    replace (Z.succ (Zpos (digits2_pos p)) - 1) with (Z.succ (Zpos (digits2_pos p) - 1)) by lia.
    rewrite !Z.pow_succ_r by lia. lia.
  - rewrite Pos2Z.inj_succ.
    replace (Z.succ (Zpos (digits2_pos p)) - 1) with (Z.succ (Zpos (digits2_pos p) - 1)) by lia.
    rewrite !Z.pow_succ_r by lia. lia.
  - cbn. lia.
Qed.

Lemma Zdigits2_unique (z n : Z) :
  2 ^ (n - 1) <= z < 2 ^ n -> 0 < n -> Zdigits2 z = n.
Proof.
  intros Hz Hn.
  destruct z as [| p | p].
  - assert (0 < 2 ^ (n - 1)) by (apply Z.pow_pos_nonneg; lia). lia.
  - cbn [Zdigits2]. pose proof (digits2_pos_bounds p) as Hp.
    set (d := Zpos (digits2_pos p)) in *.
    destruct (Z.lt_trichotomy d n) as [Hlt | [Heq | Hgt]]; [| exact Heq |].
    + assert (2 ^ d <= 2 ^ (n - 1)) by (apply Z.pow_le_mono_r; lia). lia.
    + assert (2 ^ n <= 2 ^ (d - 1)) by (apply Z.pow_le_mono_r; lia). lia.
  - assert (0 < 2 ^ (n - 1)) by (apply Z.pow_pos_nonneg; lia). lia.
Qed.

Lemma shr_m_shr_1 (x : shr_record) :
  0 <= shr_m x -> shr_m (shr_1 x) = shr_m x / 2.
Proof.
  destruct x as [m r s]; cbn [shr_m]; intros Hm.
  destruct m as [| [p | p |] | p]; cbn [shr_1 shr_m]; try lia.
  - reflexivity.
  - apply Z.div_unique with 1; lia.
  - apply Z.div_unique with 0; lia.
  - reflexivity.
Qed.

Lemma shr_m_iter (p : positive) (x : shr_record) :
  0 <= shr_m x ->
  shr_m (SpecFloat.iter_pos shr_1 p x) = shr_m x / 2 ^ Zpos p.
Proof.
  revert x; induction p as [p IH | p IH |]; intros x Hx; cbn [SpecFloat.iter_pos].
  - assert (H1 : 0 <= shr_m (shr_1 x)) by (rewrite shr_m_shr_1 by lia; apply Z.div_pos; lia).
    assert (H2 : 0 <= shr_m (SpecFloat.iter_pos shr_1 p (shr_1 x))).
    { rewrite IH by lia. apply Z.div_pos; [lia | apply Z.pow_pos_nonneg; lia]. }
    rewrite IH, IH, shr_m_shr_1 by lia.
    rewrite !Z.div_div by (try apply Z.pow_pos_nonneg; lia).
    f_equal. rewrite Pos2Z.inj_xI, <- Z.pow_add_r, <- (Z.pow_1_r 2) at 1 by lia.
    rewrite <- Z.pow_add_r by lia. f_equal; lia.
  - assert (H2 : 0 <= shr_m (SpecFloat.iter_pos shr_1 p x)).
    { rewrite IH by lia. apply Z.div_pos; [lia | apply Z.pow_pos_nonneg; lia]. }
    rewrite IH, IH by lia.
    rewrite !Z.div_div by (try apply Z.pow_pos_nonneg; lia).
    f_equal. rewrite Pos2Z.inj_xO, <- Z.pow_add_r by lia. f_equal; lia.
  - rewrite shr_m_shr_1 by lia. reflexivity.
Qed.

Lemma round_nearest_even_cases (m : Z) (l : location) :
  round_nearest_even m l = m \/ round_nearest_even m l = m + 1.
Proof.
  destruct l as [| []]; cbn [round_nearest_even]; auto.
  destruct (Z.even m); auto.
Qed.

Lemma shr_fexp_normal (m e k : Z) (l : location) :
  Zdigits2 m = prec + k -> -1074 <= e + k ->
  shr_fexp prec emax m e l = shr (shr_record_of_loc m l) e k.
Proof.
  intros Hd He. unfold shr_fexp. f_equal.
  rewrite Hd. unfold fexp, emin, prec, emax. lia.
Qed.

Lemma binary_round_aux_rounds (s : bool) (M : positive) (e : Z) :
  let D := Zpos (digits2_pos M) in
  prec < D -> -1074 <= e + (D - prec) -> e + (D - prec) + 1 <= 971 ->
  exists (m : positive) (j : Z),
    binary_round_aux prec emax s (Zpos M) e loc_Exact = S754_finite s m (e + j)
    /\ (j = D - prec \/ j = D - prec + 1)
    /\ Zpos M / 2 ^ j <= Zpos m <= Zpos M / 2 ^ j + 1.
Proof.
  intros D HD Hlo Hhi.
  pose proof (digits2_pos_bounds M) as HM. fold D in HM.
  unfold binary_round_aux.
  rewrite (shr_fexp_normal (Zpos M) e (D - prec)) by (cbn [Zdigits2]; fold D; lia).
  destruct (D - prec) as [| k |] eqn:Hk; try (unfold prec in *; lia).
  cbn [shr shr_record_of_loc].
  set (mrs := SpecFloat.iter_pos shr_1 k _).
  assert (Hm1 : shr_m mrs = Zpos M / 2 ^ Zpos k)
    by (unfold mrs; rewrite shr_m_iter; cbn [shr_m]; [reflexivity | lia]).
  assert (H2k : 0 < 2 ^ Zpos k) by (apply Z.pow_pos_nonneg; lia).
  assert (Hlow : 2 ^ 52 <= shr_m mrs).
  { rewrite Hm1. apply Z.div_le_lower_bound; [lia |].
    rewrite <- Z.pow_add_r by lia.
    replace (Zpos k + 52) with (D - 1) by (unfold prec in *; lia). lia. }
  assert (Hupp : shr_m mrs < 2 ^ 53).
  { rewrite Hm1. apply Z.div_lt_upper_bound; [lia |].
    rewrite <- Z.pow_add_r by lia.
    replace (Zpos k + 53) with D by (unfold prec in *; lia). lia. }
  set (m2 := round_nearest_even (shr_m mrs) (loc_of_shr_record mrs)).
  assert (Hm2 : m2 = shr_m mrs \/ m2 = shr_m mrs + 1)
    by apply round_nearest_even_cases.
  destruct (Z.eq_dec m2 (2 ^ 53)) as [Hcarry | Hnocarry].
  - (* the rounded mantissa reached 2^53: one more shift *)
    rewrite (shr_fexp_normal m2 (e + Zpos k) 1)
      by (try (rewrite Hcarry; reflexivity); unfold prec in *; lia).
    rewrite Hcarry. cbn [shr shr_record_of_loc SpecFloat.iter_pos shr_1 shr_m Z.pow Z.pow_pos Pos.iter Z.mul Pos.mul].
    replace (e + Zpos k + 1 <=? emax - prec) with true
      by (symmetry; apply Z.leb_le; unfold emax, prec in *; lia).
    eexists _, (Zpos k + 1). split; [rewrite Z.add_assoc; reflexivity |].
    split; [right; reflexivity |].
    rewrite Z.pow_add_r, <- Z.div_div, <- Hm1 by lia.
    assert (shr_m mrs = 2 ^ 53 - 1) by lia.
    replace (shr_m mrs) with (2 ^ 53 - 1).
    replace ((2 ^ 53 - 1) / 2 ^ 1) with 4503599627370495 by reflexivity.
    lia.
  - rewrite (shr_fexp_normal m2 (e + Zpos k) 0).
    2:{ rewrite Z.add_0_r. apply Zdigits2_unique; [| reflexivity].
        change (prec - 1) with 52. change prec with 53. lia. }
    2:{ unfold prec in *; lia. }
    cbn [shr shr_record_of_loc shr_m].
    destruct m2 as [| m |] eqn:Em2; try lia.
    replace (e + Zpos k <=? emax - prec) with true
      by (symmetry; apply Z.leb_le; unfold emax, prec in *; lia).
    exists m, (Zpos k). split; [reflexivity |]. split; [left; reflexivity |].
    rewrite <- Hm1. lia.
Qed.

Lemma binary_round_aux_exact (s : bool) (m : positive) (e : Z) :
  Zpos (digits2_pos m) = prec -> -1074 <= e <= 971 ->
  binary_round_aux prec emax s (Zpos m) e loc_Exact = S754_finite s m e.
Proof.
  intros Hd He. unfold binary_round_aux.
  rewrite (shr_fexp_normal (Zpos m) e 0) by (cbn [Zdigits2]; lia).
  cbn [shr shr_record_of_loc shr_m loc_of_shr_record round_nearest_even].
  rewrite (shr_fexp_normal (Zpos m) e 0) by (cbn [Zdigits2]; lia).
  cbn [shr shr_record_of_loc shr_m].
  replace (e <=? emax - prec) with true
    by (symmetry; apply Z.leb_le; unfold emax, prec; lia).
  reflexivity.
Qed.

Lemma Zpos_iter_xO (p n : positive) :
  Zpos (Pos.iter xO p n) = Zpos p * 2 ^ Zpos n.
Proof.
  change (Pos.iter xO p n) with (shift_pos n p).
  rewrite shift_pos_correct. apply Z.mul_comm.
Qed.

Lemma float_of_pos (s : bool) (p : positive) :
  let d := Zpos (digits2_pos p) in
  d <= prec ->
  exists mz : positive,
    binary_round prec emax s p 0 = S754_finite s mz (d - prec)
    /\ Zpos mz = Zpos p * 2 ^ (prec - d)
    /\ Zpos (digits2_pos mz) = prec.
Proof.
  intros d Hd. pose proof (digits2_pos_bounds p) as Hp. fold d in Hp.
  assert (Hd1 : 1 <= d) by (unfold d; lia).
  unfold binary_round.
  replace (fexp prec emax (Zpos (digits2_pos p) + 0)) with (d - prec)
    by (fold d; unfold fexp, emin, prec, emax in *; lia).
  unfold shl_align. rewrite Z.sub_0_r.
  destruct (d - prec) as [| k | k] eqn:Hk; try lia.
  - assert (d = prec) by lia.
    exists p. rewrite binary_round_aux_exact by (fold d; lia).
    replace (prec - d) with 0 by lia. rewrite Z.mul_1_r. fold d. auto.
  - assert (Hmz : Zpos (Pos.iter xO p k) = Zpos p * 2 ^ (prec - d))
      by (rewrite Zpos_iter_xO; f_equal; f_equal; lia).
    assert (Hdz : Zpos (digits2_pos (Pos.iter xO p k)) = prec).
    { apply (Zdigits2_unique (Zpos (Pos.iter xO p k))); [| reflexivity].
      assert (E1 : 2 ^ (prec - 1) = 2 ^ (d - 1) * 2 ^ (prec - d))
        by (rewrite <- Z.pow_add_r by lia; f_equal; lia).
      assert (E2 : 2 ^ prec = 2 ^ d * 2 ^ (prec - d))
        by (rewrite <- Z.pow_add_r by lia; f_equal; lia).
      assert (0 < 2 ^ (prec - d)) by (apply Z.pow_pos_nonneg; lia).
      rewrite Hmz, E1, E2.
      split; [apply Z.mul_le_mono_nonneg_r | apply Z.mul_lt_mono_pos_r]; lia. }
    exists (Pos.iter xO p k).
    rewrite binary_round_aux_exact by (unfold prec in *; lia).
    auto.
Qed.

Lemma pow2_lt_inv (a b : Z) : 0 <= b -> 2 ^ a < 2 ^ b -> a < b.
Proof. intros Hb H. apply (Z.pow_lt_mono_r_iff 2); lia. Qed.

Lemma mul_0_45_trunc (s : bool) (p : positive) :
  Zpos p < 2 ^ 48 ->
  exists (m : positive) (e : Z),
    SFmul prec emax (binary_round prec emax s p 0) (S754_finite false 8106479329266893 (-54))
    = S754_finite s m e
    /\ e < 0
    /\ Zpos m / 2 ^ (- e) = 45 * Zpos p / 100.
Proof.
  intros Hp.
  pose proof (digits2_pos_bounds p) as Hdp.
  set (d := Zpos (digits2_pos p)) in *.
  assert (Hd1 : 1 <= d) by (unfold d; lia).
  assert (Hd : d <= 48).
  { assert (d - 1 < 48) by (apply pow2_lt_inv; lia). lia. }
  destruct (float_of_pos s p) as (mz & -> & Hmz & Hdz); [fold d; unfold prec; lia |].
  fold d in Hmz. fold d.
  cbn [SFmul]. rewrite xorb_false_r.
  pose proof (digits2_pos_bounds mz) as Hbz. rewrite Hdz in Hbz.
  change (prec - 1) with 52 in Hbz. change prec with 53 in Hbz.
  pose proof (digits2_pos_bounds (mz * 8106479329266893)) as HbM.
  set (D := Zpos (digits2_pos (mz * 8106479329266893))) in *.
  assert (HM : 2 ^ 104 <= Zpos (mz * 8106479329266893) < 2 ^ 106).
  { rewrite Pos2Z.inj_mul. 
    change (2 ^ 104) with (2 ^ 52 * 2 ^ 52). change (2 ^ 106) with (2 ^ 53 * 2 ^ 53).
    split; [apply Z.mul_le_mono_nonneg | apply Z.mul_lt_mono_nonneg]; lia. }
  assert (HD : 105 <= D <= 106).
  { assert (D - 1 < 106) by (apply pow2_lt_inv; lia).
    assert (104 < D) by (apply pow2_lt_inv; lia). lia. }
  destruct (binary_round_aux_rounds s (mz * 8106479329266893) (d - prec + -54))
    as (m & j & -> & Hj & Hm); fold D; try (unfold prec; lia).
  exists m, (d - prec + -54 + j).
  split; [reflexivity |].
  assert (Hj' : 52 <= j <= 54) by (unfold prec in Hj; lia).
  split; [unfold prec; lia |].
  set (T := 2 ^ (- (d - prec + -54 + j))).
  set (X := 2 ^ (prec - d)) in *.
  assert (HX : 2 ^ 5 <= X) by (apply Z.pow_le_mono_r; unfold prec; lia).
  assert (HT : 0 < T) by (apply Z.pow_pos_nonneg; unfold prec; lia).
  assert (H2j : 0 < 2 ^ j <= 2 ^ 54)
    by (split; [apply Z.pow_pos_nonneg | apply Z.pow_le_mono_r]; lia).
  assert (HTj : 2 ^ j * T = 2 ^ 54 * X).
  { unfold T, X. rewrite <- !Z.pow_add_r by (unfold prec; lia).
    f_equal. unfold prec. lia. }
  assert (HMv : Zpos (mz * 8106479329266893) = Zpos p * X * 8106479329266893)
    by (rewrite Pos2Z.inj_mul, Hmz; reflexivity).
  pose proof (Z.div_mod (45 * Zpos p) 100 ltac:(lia)) as Hqr.
  pose proof (Z.mod_pos_bound (45 * Zpos p) 100 ltac:(lia)) as Hr.
  set (q := 45 * Zpos p / 100) in *.
  set (r := (45 * Zpos p) mod 100) in *.
  assert (Hq : 0 <= q) by (apply Z.div_pos; lia).
  assert (HpX : Zpos p * X < 2 ^ 53) by lia.
  assert (E : 45 * (Zpos p * X) = 100 * (q * X) + r * X)
    by (transitivity (45 * Zpos p * X); [ring | rewrite Hqr; ring]).
  assert (HrX : 0 <= r * X <= 95 * X)
    by (split; [apply Z.mul_nonneg_nonneg | apply Z.mul_le_mono_nonneg_r]; lia).
  change (2 ^ 54) with 18014398509481984 in *.
  change (2 ^ 53) with 9007199254740992 in *.
  change (2 ^ 5) with 32 in *.
  assert (Hlo : 2 ^ j * (T * q) <= Zpos (mz * 8106479329266893)).
  { rewrite HMv, Z.mul_assoc, HTj.
    replace (18014398509481984 * X * q) with (18014398509481984 * (q * X)) by ring.
    replace (Zpos p * X * 8106479329266893)
      with (8106479329266893 * (Zpos p * X)) by ring.
    lia. }
  assert (Hup : Zpos (mz * 8106479329266893) < 2 ^ j * (T * (q + 1) - 1)).
  { rewrite HMv, Z.mul_sub_distr_l, Z.mul_assoc, HTj.
    replace (18014398509481984 * X * (q + 1))
      with (18014398509481984 * (q * X) + 18014398509481984 * X) by ring.
    replace (Zpos p * X * 8106479329266893)
      with (8106479329266893 * (Zpos p * X)) by ring.
    lia. }
  apply Z.div_le_lower_bound in Hlo; [| lia].
  apply Z.div_lt_upper_bound in Hup; [| lia].
  apply Z.le_antisymm.
  - apply Z.lt_succ_r, Z.div_lt_upper_bound; lia.
  - apply Z.div_le_lower_bound; lia.
Qed.

(** *** Exact operations on small dyadic values *)

Lemma shr_1_even (a : Z) :
  0 <= a ->
  shr_1 {| shr_m := 2 * a; shr_r := false; shr_s := false |}
  = {| shr_m := a; shr_r := false; shr_s := false |}.
Proof.
  intros Ha. destruct a as [| p | p]; [reflexivity | reflexivity | lia].
Qed.

Lemma shr_iter_exact (k : positive) (a : Z) :
  0 <= a ->
  SpecFloat.iter_pos shr_1 k
    {| shr_m := a * 2 ^ Zpos k; shr_r := false; shr_s := false |}
  = {| shr_m := a; shr_r := false; shr_s := false |}.
Proof.
  revert a. induction k as [k IH | k IH |]; intros a Ha;
    cbn [SpecFloat.iter_pos].
  - replace (a * 2 ^ Zpos k~1) with (2 * (a * 2 ^ Zpos k * 2 ^ Zpos k)).
    2:{ replace (Zpos k~1) with (Zpos k + Zpos k + 1) by lia.
        rewrite !Z.pow_add_r, Z.pow_1_r by lia. ring. }
    assert (0 < 2 ^ Zpos k) by (apply Z.pow_pos_nonneg; lia).
    rewrite shr_1_even by nia. rewrite IH by nia. apply IH. exact Ha.
  - replace (a * 2 ^ Zpos k~0) with (a * 2 ^ Zpos k * 2 ^ Zpos k).
    2:{ replace (Zpos k~0) with (Zpos k + Zpos k) by lia.
        rewrite Z.pow_add_r by lia. ring. }
    assert (0 < 2 ^ Zpos k) by (apply Z.pow_pos_nonneg; lia).
    rewrite IH by nia. apply IH. exact Ha.
  - rewrite Z.pow_1_r, Z.mul_comm. apply shr_1_even. exact Ha.
Qed.

Lemma digits_scaled (a : positive) (j : Z) (p : positive) :
  0 <= j -> Zpos p = Zpos a * 2 ^ j ->
  Zpos (digits2_pos p) = Zpos (digits2_pos a) + j.
Proof.
  intros Hj Hp. apply (Zdigits2_unique (Zpos p)); [| lia].
  pose proof (digits2_pos_bounds a) as Ha.
  set (d := Zpos (digits2_pos a)) in *.
  assert (Hd : 1 <= d) by (unfold d; lia).
  assert (0 < 2 ^ j) by (apply Z.pow_pos_nonneg; lia).
  replace (d + j - 1) with ((d - 1) + j) by lia.
  rewrite Hp, !Z.pow_add_r by lia.
  split; [apply Z.mul_le_mono_nonneg_r | apply Z.mul_lt_mono_pos_r]; lia.
Qed.

(** A mantissa with 53 significant bits followed by zeros rounds to
    those 53 bits. *)
Lemma binary_round_aux_shift (s : bool) (a p : positive) (j e : Z) :
  Zpos (digits2_pos a) = prec -> 0 <= j -> Zpos p = Zpos a * 2 ^ j ->
  -1074 <= e + j <= 971 ->
  binary_round_aux prec emax s (Zpos p) e loc_Exact = S754_finite s a (e + j).
Proof.
  intros Ha Hj Hp He.
  pose proof (digits_scaled a j p Hj Hp) as Hd. rewrite Ha in Hd.
  destruct j as [| k | k]; [| | lia].
  - rewrite Z.pow_0_r, Z.mul_1_r in Hp. injection Hp as ->.
    rewrite Z.add_0_r in *. apply binary_round_aux_exact; assumption.
  - unfold binary_round_aux.
    rewrite (shr_fexp_normal (Zpos p) e (Zpos k)) by (cbn [Zdigits2]; lia).
    cbn [shr shr_record_of_loc]. rewrite Hp, shr_iter_exact by lia.
    cbn [shr_m loc_of_shr_record round_nearest_even].
    rewrite (shr_fexp_normal (Zpos a) (e + Zpos k) 0) by (cbn [Zdigits2]; lia).
    cbn [shr shr_record_of_loc shr_m].
    replace (e + Zpos k <=? emax - prec) with true
      by (symmetry; apply Z.leb_le; unfold emax, prec; lia).
    reflexivity.
Qed.

(** Rounding a value that has at most 53 significant bits is exact:
    the result is the 53-bit mantissa [a] with the exponent moved by the
    bits added ([i]) or dropped ([j]). *)
Lemma binary_round_long (s : bool) (a p : positive) (j e : Z) :
  Zpos (digits2_pos a) = prec -> 0 <= j -> Zpos p = Zpos a * 2 ^ j ->
  -1074 <= e + j <= 971 ->
  binary_round prec emax s p e = S754_finite s a (e + j).
Proof.
  intros Ha Hj Hp He.
  pose proof (digits_scaled a j p Hj Hp) as Hd. rewrite Ha in Hd.
  unfold binary_round.
  replace (fexp prec emax (Zpos (digits2_pos p) + e)) with (e + j)
    by (rewrite Hd; unfold fexp, emin, prec, emax; lia).
  unfold shl_align.
  replace (e + j - e) with j by lia.
  destruct j as [| k | k]; [| | lia];
    apply binary_round_aux_shift; assumption.
Qed.

Lemma binary_round_short (s : bool) (a p : positive) (i e : Z) :
  Zpos (digits2_pos a) = prec -> 0 <= i -> Zpos a = Zpos p * 2 ^ i ->
  -1074 <= e - i <= 971 ->
  binary_round prec emax s p e = S754_finite s a (e - i).
Proof.
  intros Ha Hi Hp He.
  pose proof (digits_scaled p i a Hi Hp) as Hd. rewrite Ha in Hd.
  unfold binary_round.
  replace (fexp prec emax (Zpos (digits2_pos p) + e)) with (e - i)
    by (unfold fexp, emin, prec, emax in *; lia).
  unfold shl_align.
  replace (e - i - e) with (- i) by lia.
  destruct i as [| k | k]; [| | lia].
  - change (- 0) with 0. cbv iota. rewrite Z.pow_0_r, Z.mul_1_r in Hp. injection Hp as ->.
    rewrite Z.sub_0_r in *. apply binary_round_aux_exact; [assumption | lia].
  - change (- Zpos k) with (Zneg k). cbv iota beta.
    change (PosDef.Pos.iter xO p k) with (Pos.iter xO p k).
    assert (Pos.iter xO p k = a) as ->.
    { apply Pos2Z.inj. rewrite Zpos_iter_xO. symmetry. exact Hp. }
    apply binary_round_aux_exact; [assumption | lia].
Qed.

Lemma binary_round_magnitude (s : bool) (k p : positive) (j e : Z) :
  0 <= j -> Zpos k < 2 ^ 53 -> Zpos p = Zpos k * 2 ^ j ->
  -1074 <= e + j - 52 -> e + j <= 0 ->
  exists a : positive,
    binary_round prec emax s p e
    = S754_finite s a (e + j + Zpos (digits2_pos k) - prec)
    /\ Zpos (digits2_pos a) = prec
    /\ Zpos a = Zpos k * 2 ^ (prec - Zpos (digits2_pos k)).
Proof.
  intros Hj Hk Hp Hlo Hhi.
  pose proof (digits2_pos_bounds k) as Hdk.
  set (d := Zpos (digits2_pos k)) in *.
  assert (Hd1 : 1 <= d) by (unfold d; lia).
  assert (Hd : d <= prec).
  { assert (d - 1 < 53) by (apply pow2_lt_inv; lia). unfold prec. lia. }
  destruct (float_of_pos s k Hd) as (a & _ & Ha & Hda). fold d in Ha.
  exists a. split; [| split; assumption].
  destruct (Z.le_gt_cases (prec - d) j) as [Hlong | Hshort].
  - replace (e + j + d - prec) with (e + (j - (prec - d))) by lia.
    apply binary_round_long; [assumption | lia | | unfold prec in *; lia].
    rewrite Hp, Ha, <- Z.mul_assoc, <- Z.pow_add_r by lia.
    f_equal. f_equal. lia.
  - replace (e + j + d - prec) with (e - (prec - d - j)) by lia.
    apply binary_round_short; [assumption | lia | | unfold prec in *; lia].
    rewrite Hp, Ha, <- Z.mul_assoc, <- Z.pow_add_r by lia.
    f_equal. f_equal. lia.
Qed.

Lemma binary_normalize_exact (K j e : Z) :
  0 <= j -> Z.abs K < 2 ^ 53 -> -1074 <= e + j - 52 -> e + j <= 0 ->
  exact_dyadic (binary_normalize prec emax (K * 2 ^ j) e false) K (- (e + j)).
Proof.
  intros Hj HK Hlo Hhi.
  assert (H2j : 0 < 2 ^ j) by (apply Z.pow_pos_nonneg; lia).
  destruct K as [| k | k].
  - reflexivity.
  - destruct (Zpos k * 2 ^ j) as [| p | p] eqn:Hp; try lia.
    cbn [binary_normalize].
    destruct (binary_round_magnitude false k p j e) as (a & -> & Hda & Ha);
      try assumption; try lia.
    pose proof (digits2_pos_bounds k) as Hdk.
    assert (Zpos (digits2_pos k) - 1 < 53) by (apply pow2_lt_inv; lia).
    cbn [exact_dyadic cond_Zopp]. unfold prec in *.
    repeat split; try lia.
    rewrite Ha. f_equal. f_equal. lia.
  - destruct (Zneg k * 2 ^ j) as [| p | p] eqn:Hp; try lia.
    cbn [binary_normalize].
    destruct (binary_round_magnitude true k p j e) as (a & -> & Hda & Ha);
      try assumption; try lia.
    pose proof (digits2_pos_bounds k) as Hdk.
    assert (Zpos (digits2_pos k) - 1 < 53) by (apply pow2_lt_inv; lia).
    cbn [exact_dyadic cond_Zopp]. unfold prec in *.
    repeat split; try lia.
    rewrite Ha.
    replace (Zneg k) with (- Zpos k) by lia.
    rewrite Z.mul_opp_l. f_equal. f_equal. f_equal. lia.
Qed.

Lemma cond_Zopp_abs (s : bool) (a : positive) (K P : Z) :
  0 < P -> cond_Zopp s (Zpos a) = K * P ->
  Zpos a = Z.abs K * P /\ 1 <= Z.abs K /\ P <= Zpos a.
Proof.
  intros HP Ha.
  assert (Habs : Zpos a = Z.abs K * P)
    by (destruct s; cbn [cond_Zopp] in Ha; nia).
  assert (HK : 1 <= Z.abs K) by nia.
  repeat split; [exact Habs | exact HK |].
  rewrite Habs. rewrite <- (Z.mul_1_l P) at 1.
  apply Z.mul_le_mono_nonneg_r; lia.
Qed.

Lemma exact_dyadic_scale (f : float) (K h : Z) :
  0 <= h -> Z.abs K * 2 ^ h < 2 ^ 53 ->
  exact_dyadic f K 0 -> exact_dyadic f (K * 2 ^ h) h.
Proof.
  intros Hh HK. destruct f as [s | s | | s a e]; cbn [exact_dyadic]; try tauto.
  - intros ->. reflexivity.
  - intros (Hda & Hhi & Ha).
    pose proof (digits2_pos_bounds a) as Hb. rewrite Hda in Hb.
    change (prec - 1) with 52 in Hb.
    assert (Habs : Zpos a = Z.abs K * 2 ^ (- e - 0)).
    { assert (0 < 2 ^ (- e - 0)) by (apply Z.pow_pos_nonneg; lia).
      destruct s; cbn [cond_Zopp] in Ha; nia. }
    assert (Heh : e + h <= 0).
    { destruct (Z.le_gt_cases (e + h) 0) as [Hle | Hgt]; [exact Hle | exfalso].
      assert (2 ^ (- e - 0) <= 2 ^ (h - 1)) by (apply Z.pow_le_mono_r; lia).
      assert (2 ^ h = 2 * 2 ^ (h - 1)).
      { replace h with (1 + (h - 1)) at 1 by lia.
        rewrite Z.pow_add_r by lia. reflexivity. }
      assert (0 <= Z.abs K) by lia.
      assert (Z.abs K * 2 ^ (- e - 0) <= Z.abs K * 2 ^ (h - 1))
        by (apply Z.mul_le_mono_nonneg_l; lia).
      change (2 ^ 53) with (2 * 2 ^ 52) in HK. lia. }
    repeat split; try assumption.
    rewrite Ha, <- Z.mul_assoc, <- Z.pow_add_r by lia. f_equal. f_equal. lia.
Qed.

Lemma float_of_int_exact (z h : Z) :
  0 <= h -> Z.abs z * 2 ^ h < 2 ^ 53 ->
  exists f, float_of_int z = Ok f /\ exact_dyadic f (z * 2 ^ h) h.
Proof.
  intros Hh Hz.
  assert (H2h : 1 <= 2 ^ h) by (apply (Z.pow_le_mono_r 2 0 h); lia).
  assert (Hz0 : Z.abs z < 2 ^ 53) by nia.
  pose proof (binary_normalize_exact z 0 0) as H.
  rewrite Z.pow_0_r, Z.mul_1_r in H. specialize (H ltac:(lia) Hz0 ltac:(lia) ltac:(lia)).
  cbn [Z.add Z.opp] in H.
  unfold float_of_int.
  destruct (binary_normalize prec emax z 0 false) as [s | s | | s a e] eqn:Hf;
    try contradiction.
  - exists (S754_zero s). split; [reflexivity |].
    apply exact_dyadic_scale; assumption.
  - exists (S754_finite s a e). split; [reflexivity |].
    apply exact_dyadic_scale; assumption.
Qed.

Lemma exact_dyadic_exponent (s : bool) (a : positive) (e K h : Z) :
  exact_dyadic (S754_finite s a e) K h -> - 52 - h <= e.
Proof.
  intros (Hda & Hhi & Ha).
  pose proof (digits2_pos_bounds a) as Hb. rewrite Hda in Hb.
  change (prec) with 53 in Hb.
  assert (H2 : 0 < 2 ^ (- e - h)) by (apply Z.pow_pos_nonneg; lia).
  destruct (cond_Zopp_abs s a K _ H2 Ha) as (_ & _ & Hle).
  assert (- e - h < 53) by (apply pow2_lt_inv; lia). lia.
Qed.

(** Dividing by two lowers the exponent. *)
Lemma SFdiv_two (f : float) (K h : Z) :
  0 <= h <= 1000 -> exact_dyadic f K h ->
  exact_dyadic
    (SFdiv prec emax f (S754_finite false 4503599627370496 (-51))) K (h + 1).
Proof.
  intros Hh. destruct f as [s | s | | s a e]; cbn [exact_dyadic]; try tauto.
  intros Hf. pose proof (exact_dyadic_exponent _ _ _ _ _ Hf) as Hlo.
  destruct Hf as (Hda & Hhi & Ha).
  assert (Hdiv : SFdiv prec emax (S754_finite s a e)
                   (S754_finite false 4503599627370496 (-51))
                 = S754_finite s a (e - 1)).
  { unfold SFdiv, SFdiv_core_binary. cbn [Zdigits2]. rewrite Hda.
    change (Zpos (digits2_pos 4503599627370496)) with 53.
    replace (Z.min (fexp prec emax (prec + e - (53 + -51))) (e - -51))
      with (e - 2) by (unfold fexp, emin, prec, emax; lia).
    replace (e - -51 - (e - 2)) with 53 by lia.
    cbv iota beta.
    pose proof (Z_div_mod (Z.shiftl (Zpos a) 53) 4503599627370496
                  ltac:(reflexivity)) as Hqr.
    rewrite Z.shiftl_mul_pow2 in Hqr by lia.
    change (2 ^ 53) with 9007199254740992 in Hqr.
    rewrite Z.shiftl_mul_pow2 by lia.
    change (2 ^ 53) with 9007199254740992.
    destruct (Z.div_eucl (Zpos a * 9007199254740992) 4503599627370496)
      as [q r].
    assert (q = Zpos a~0 /\ r = 0) as [-> ->] by lia.
    rewrite xorb_false_r.
    change (new_location 4503599627370496 0) with loc_Exact.
    replace (e - 1) with (e - 2 + 1) by lia.
    apply binary_round_aux_shift; [assumption | lia | lia |].
    pose proof (digits2_pos_bounds a). lia. }
  rewrite Hdiv. cbn [exact_dyadic].
  repeat split; try assumption; try lia.
  rewrite Ha. f_equal. f_equal. lia.
Qed.

Lemma shl_align_fst (m : positive) (e e' : Z) :
  e' <= e -> Zpos (fst (shl_align m e e')) = Zpos m * 2 ^ (e - e').
Proof.
  intros He. unfold shl_align.
  destruct (e' - e) as [| k | k] eqn:Hk; try lia.
  - replace (e - e') with 0 by lia. cbn [fst]. lia.
  - cbn [fst]. change (PosDef.Pos.iter xO m k) with (Pos.iter xO m k).
    rewrite Zpos_iter_xO. f_equal. f_equal. lia.
Qed.

Lemma cond_Zopp_mul (s : bool) (a b : Z) :
  cond_Zopp s (a * b) = cond_Zopp s a * b.
Proof. destruct s; cbn [cond_Zopp]; lia. Qed.

(** The difference of two doubles that are multiples of [2^-h] is
    exact when it has at most 53 significant bits. *)
Lemma SFsub_exact (x y : float) (Kx Ky h : Z) :
  0 <= h <= 1000 ->
  exact_dyadic x Kx h -> exact_dyadic y Ky h ->
  Z.abs (Kx - Ky) < 2 ^ 53 ->
  exact_dyadic (SFsub prec emax x y) (Kx - Ky) h.
Proof.
  intros Hh Hx Hy HK.
  destruct x as [sx | sx | | sx ax ex]; try contradiction;
    destruct y as [sy | sy | | sy ay ey]; try contradiction.
  - cbn [exact_dyadic] in Hx, Hy. subst Kx Ky.
    destruct sx, sy; reflexivity.
  - cbn [exact_dyadic] in Hx. subst Kx.
    destruct Hy as (Hda & Hhi & Ha). cbn [SFsub exact_dyadic].
    repeat split; try assumption.
    destruct sy; cbn [negb cond_Zopp] in *; lia.
  - cbn [exact_dyadic] in Hy. subst Ky. cbn [SFsub].
    rewrite Z.sub_0_r. exact Hx.
  - pose proof (exact_dyadic_exponent _ _ _ _ _ Hx) as Hxlo.
    pose proof (exact_dyadic_exponent _ _ _ _ _ Hy) as Hylo.
    destruct Hx as (Hdx & Hxhi & Hax). destruct Hy as (Hdy & Hyhi & Hay).
    cbn [SFsub]. set (ez := Z.min ex ey).
    rewrite !shl_align_fst, !cond_Zopp_mul, Hax, Hay by (unfold ez; lia).
    replace (Kx * 2 ^ (- ex - h) * 2 ^ (ex - ez)
             - Ky * 2 ^ (- ey - h) * 2 ^ (ey - ez))
      with ((Kx - Ky) * 2 ^ (- ez - h)).
    2:{ rewrite <- !Z.mul_assoc, <- !Z.pow_add_r by (unfold ez; lia).
        replace (- ex - h + (ex - ez)) with (- ez - h) by lia.
        replace (- ey - h + (ey - ez)) with (- ez - h) by lia. ring. }
    replace h with (- (ez + (- ez - h))) at 2 by lia.
    apply binary_normalize_exact; unfold ez; lia.
Qed.

Lemma Q_of_float_half (f : float) (K : Z) :
  exact_dyadic f K 1 ->
  exists q, Q_of_float f = Some q /\ (q == inject_Z K / 2)%Q.
Proof.
  destruct f as [s | s | | s a e]; cbn [exact_dyadic]; try contradiction.
  - intros ->. exists 0%Q. split; reflexivity.
  - intros (Hda & Hhi & Ha). cbn [Q_of_float].
    replace (0 <=? e) with false by (symmetry; apply Z.leb_gt; lia).
    eexists. split; [reflexivity |].
    assert (H2 : 0 < 2 ^ (- e - 1)) by (apply Z.pow_pos_nonneg; lia).
    assert (Hpow : 2 ^ (- e) = 2 * 2 ^ (- e - 1)).
    { replace (- e) with (1 + (- e - 1)) at 1 by lia.
      rewrite Z.pow_add_r by lia. reflexivity. }
    unfold Qeq, Qdiv, Qmult, Qinv, inject_Z. cbn [Qnum Qden].
    rewrite Z2Pos.id by lia. rewrite Ha, Hpow. 
    change (Zpos (1 * 2)) with 2. ring.
Qed.

Lemma float_of_int_two :
  float_of_int 2 = Ok (S754_finite false 4503599627370496 (-51)).
Proof. vm_compute. reflexivity. Qed.

(** [n / 2 - l] in binary64 is the rational [n / 2 - l]. *)
Lemma half_minus_exact (n l : Z) :
  Z.abs n < 2 ^ 52 -> Z.abs l < 2 ^ 51 ->
  exists fx qx,
    (half ← truediv n 2; sub_float_int half l) = Ok fx
    /\ Q_of_float fx = Some qx
    /\ (qx == inject_Z n / 2 - inject_Z l)%Q.
Proof.
  intros Hn Hl.
  destruct (float_of_int_exact n 0) as (fn & Hfn & Hen); [lia | lia |].
  destruct (float_of_int_exact l 1) as (fl & Hfl & Hel); [lia | lia |].
  rewrite Z.pow_0_r, Z.mul_1_r in Hen. rewrite Z.pow_1_r in Hel.
  apply (SFdiv_two fn n 0 ltac:(lia)) in Hen. cbn [Z.add] in Hen.
  pose proof (SFsub_exact _ _ _ _ 1 ltac:(lia) Hen Hel ltac:(lia)) as Hsub.
  apply Q_of_float_half in Hsub as (q & Hq & Hval).
  unfold truediv, sub_float_int. cbn [Z.eqb].
  rewrite Hfn, float_of_int_two. cbn [mbind result_bind].
  rewrite Hfl. cbn [mbind result_bind].
  eexists _, q. split; [reflexivity |]. split; [exact Hq |].
  rewrite Hval. unfold Z.sub. rewrite inject_Z_plus, inject_Z_opp, inject_Z_mult.
  change (inject_Z 2) with 2%Q. field.
Qed.

End Floats.

(** ** The font size *)

Lemma literal_0_45 :
  float_literal 45 100 = S754_finite false 8106479329266893 (-54).
Proof. vm_compute. reflexivity. Qed.

(** The literal is the double nearest to 45/100: its distance to 45/100
    is at most half the spacing [2^-54] of the doubles around it. *)
Lemma literal_0_45_nearest :
  2 * Z.abs (100 * 8106479329266893 - 45 * 2 ^ 54) <= 100.
Proof. vm_compute. discriminate. Qed.

Lemma font_size_magnitude (s : bool) (p : positive) :
  Zpos p < 2 ^ 48 ->
  font_size (cond_Zopp s (Zpos p))
  = Ok (Z.max (cond_Zopp s (45 * Zpos p / 100)) 8).
Proof.
  intros Hp.
  destruct (mul_0_45_trunc s p Hp) as (m & e & Hmul & He & Hq).
  pose proof (digits2_pos_bounds p) as Hdp.
  assert (Hd : Zpos (digits2_pos p) <= prec).
  { assert (Zpos (digits2_pos p) - 1 < 48) by (apply pow2_lt_inv; lia).
    unfold prec. lia. }
  destruct (float_of_pos s p Hd) as (mz & Hbr & _).
  unfold font_size, mul_int_float, float_of_int. rewrite literal_0_45.
  replace (binary_normalize prec emax (cond_Zopp s (Zpos p)) 0 false)
    with (binary_round prec emax s p 0) by (destruct s; reflexivity).
  rewrite Hbr in Hmul |- *. cbn [mbind result_bind].
  rewrite Hmul. cbn [int_of_float mbind result_bind].
  replace (0 <=? e) with false by (symmetry; apply Z.leb_gt; lia).
  rewrite Hq. reflexivity.
Qed.

Lemma font_size_truncates (size : Z) :
  - 2 ^ 48 < size < 2 ^ 48 ->
  font_size size = Ok (Z.max ((45 * size) ÷ 100) 8).
Proof.
  intros Hsize. destruct size as [| p | p].
  - vm_compute. reflexivity.
  - pose proof (font_size_magnitude false p) as H. cbn [cond_Zopp] in H.
    rewrite H, Z.quot_div_nonneg by lia. reflexivity.
  - pose proof (font_size_magnitude true p) as H. cbn [cond_Zopp] in H.
    change (- Zpos p) with (Zneg p) in H. rewrite H by lia.
    replace (45 * Zneg p) with (- (45 * Zpos p)) by lia.
    rewrite Z.quot_opp_l, Z.quot_div_nonneg by lia. reflexivity.
Qed.

(** C2, as amended. For every pixel dimension from 0 up to [2^48] the
    font size the renderer asks for is [max(int(dimension * 0.45), 8)]
    with [int] truncating the binary64 product: it is the integer
    quotient of [45 * dimension] by 100, floored at 8, not the rounded
    product. *)
Theorem font_size_is_truncated_product (dimension : Z) :
  0 <= dimension < 2 ^ 48 ->
  font_size dimension = Ok (Z.max (45 * dimension / 100) 8).
Proof.
  intros H. rewrite font_size_truncates by lia.
  rewrite Z.quot_div_nonneg by lia. reflexivity.
Qed.

Lemma font_size_is_truncated_product_witness :
  0 <= 64 < 2 ^ 48 /\ font_size 64 = Ok (Z.max (45 * 64 / 100) 8).
Proof.
  assert (H : 0 <= 64 < 2 ^ 48) by (split; [discriminate | reflexivity]).
  split; [exact H | exact (font_size_is_truncated_product 64 H)].
Defined.

(** C2 as the specification states it fails at dimension 64, an entry of
    [ICON_SIZES]: [64 * 0.45 = 28.8] rounds to 29, the script asks for
    28. *)
Lemma font_size_is_not_rounded :
  font_size 64 = Ok 28 /\ font_size_rounded 64 = Ok 29
  /\ font_size 64 <> font_size_rounded 64.
Proof.
  assert (H1 : font_size 64 = Ok 28) by (vm_compute; reflexivity).
  assert (H2 : font_size_rounded 64 = Ok 29) by (vm_compute; reflexivity).
  rewrite H1, H2. repeat split. discriminate.
Qed.

(** The sizes asked for on the ten icons. *)
Lemma font_size_ICON_SIZES :
  map (fun entry => font_size (snd entry)) ICON_SIZES
  = map Ok [8; 14; 14; 28; 57; 115; 115; 230; 230; 460].
Proof. vm_compute. reflexivity. Qed.

(** ** The font resolver *)

(** C8. The font resolver returns the first candidate path that exists:
    every candidate before it does not exist; it returns [None] exactly
    when no candidate exists. It is a total function: no error. *)
Theorem find_monospace_font_first_existing (E : env) :
  match find_monospace_font E with
  | Some path =>
      exists before after,
        candidates = before ++ path :: after
        /\ path_exists E path = true
        /\ Forall (fun q => path_exists E q = false) before
  | None => Forall (fun q => path_exists E q = false) candidates
  end.
Proof.
  unfold find_monospace_font. generalize candidates as paths.
  induction paths as [| path rest IH]; cbn [first_existing].
  - constructor.
  - destruct (path_exists E path) eqn:Hpath.
    + exists [], rest. repeat split; [assumption | constructor].
    + destruct (first_existing (path_exists E) rest) as [found |].
      * destruct IH as (before & after & -> & Hfound & Hbefore).
        exists (path :: before), after. repeat split; [assumption |].
        constructor; assumption.
      * constructor; assumption.
Qed.

Lemma find_monospace_font_mac :
  find_monospace_font mac = Some "/System/Library/Fonts/Menlo.ttc"
  /\ find_monospace_font no_fonts = None.
Proof. split; reflexivity. Qed.

(** ** The size list *)

(** C10. Every entry of [ICON_SIZES] has a name of the form
    [icon_NxN.png] with dimension N or [icon_NxN@2x.png] with dimension
    2N; the ten names are pairwise distinct; every dimension is
    positive, so the canvas is always allocated. *)
Theorem ICON_SIZES_names_encode_dimensions :
  length ICON_SIZES = 10%nat
  /\ Forall (fun entry =>
       exists n,
         (parse_icon_name (fst entry) = Some (n, 1) /\ snd entry = n
          \/ parse_icon_name (fst entry) = Some (n, 2) /\ snd entry = 2 * n)
         /\ named_dimension (fst entry) = Some (snd entry)
         /\ 0 < snd entry
         /\ Image_new "RGBA" (snd entry, snd entry) BG_COLOR
            = Ok (blank (snd entry))) ICON_SIZES
  /\ NoDup (map fst ICON_SIZES).
Proof.
  split; [reflexivity |]. split.
  - unfold ICON_SIZES.
    repeat (constructor;
      [ eexists; split;
        [ first [ left; split; reflexivity | right; split; reflexivity ]
        | repeat split; reflexivity ] |]).
    constructor.
  - apply (bool_decide_unpack _). vm_compute. exact I.
Qed.

(** ** The single-image renderer *)

Section Rendering.

Variable E : env.


Lemma Image_new_blank (size : Z) :
  0 <= size -> Image_new "RGBA" (size, size) BG_COLOR = Ok (blank size).
Proof.
  intros H. unfold Image_new.
  replace (size <? 0) with false by (symmetry; apply Z.ltb_ge; lia).
  reflexivity.
Qed.

Lemma Image_new_negative (size : Z) :
  size < 0 -> Image_new "RGBA" (size, size) BG_COLOR = Raise ValueError.
Proof.
  intros H. unfold Image_new.
  replace (size <? 0) with true by (symmetry; apply Z.ltb_lt; lia).
  reflexivity.
Qed.

(** What [render_icon] returns, when it returns. *)
Lemma render_icon_inv (size : Z) (font_path : option string) (img : image) :
  render_icon E size font_path = Ok img ->
  0 <= size /\
  exists fsize f,
    font_size size = Ok fsize
    /\ load_font E font_path fsize = Ok f
    /\ img = ImageDraw_text (blank size)
               (draw_origin size (textbbox (0, 0)%Q text f)) text TEXT_COLOR f.
Proof.
  unfold render_icon. intros H.
  destruct (Z.lt_ge_cases size 0) as [Hneg | Hpos].
  - rewrite Image_new_negative in H by assumption. discriminate.
  - split; [assumption |]. rewrite Image_new_blank in H by assumption.
    cbn [mbind result_bind] in H.
    destruct (font_size size) as [fsize | e] eqn:Hfs; [| discriminate].
    cbn [mbind result_bind] in H.
    destruct (load_font E font_path fsize) as [f | e] eqn:Hf; [| discriminate].
    cbn [mbind result_bind] in H. injection H as <-.
    exists fsize, f. auto.
Qed.

(** When it returns. *)
Lemma render_icon_intro (size fsize : Z) (font_path : option string)
    (f : font) :
  0 <= size ->
  font_size size = Ok fsize ->
  load_font E font_path fsize = Ok f ->
  render_icon E size font_path
  = Ok (ImageDraw_text (blank size)
          (draw_origin size (textbbox (0, 0)%Q text f)) text TEXT_COLOR f).
Proof.
  intros Hsize Hfs Hf. unfold render_icon.
  rewrite Image_new_blank by assumption. cbn [mbind result_bind].
  rewrite Hfs. cbn [mbind result_bind]. rewrite Hf. reflexivity.
Qed.

Lemma ImageDraw_text_size (img : image) (xy : Q * Q) (t : string)
    (fill : rgb) (f : font) :
  im_size (ImageDraw_text img xy t fill f) = im_size img
  /\ im_mode (ImageDraw_text img xy t fill f) = im_mode img.
Proof. unfold ImageDraw_text. destruct (pixel_origin xy). auto. Qed.

Lemma render_icon_size (size : Z) (font_path : option string) (img : image) :
  render_icon E size font_path = Ok img ->
  im_size img = (size, size) /\ im_mode img = "RGBA".
Proof.
  intros H. apply render_icon_inv in H as (_ & fsize & f & _ & _ & ->).
  apply ImageDraw_text_size.
Qed.

Lemma load_font_total (font_path : option string) (fsize : Z) :
  (forall e, truetype E font_path fsize = Raise e -> is_OSError e = true) ->
  exists f, load_font E font_path fsize = Ok f.
Proof.
  intros H. unfold load_font.
  destruct (truetype E font_path fsize) as [f | e]; [eauto |].
  rewrite (H e eq_refl). eauto.
Qed.

Lemma draw_origin_formula (size l t r b : Z) :
  let xy := draw_origin size
              (inject_Z l + 0, inject_Z t + 0, inject_Z r + 0, inject_Z b + 0)%Q in
  (fst xy == (inject_Z size - inject_Z (r - l)) / 2 - inject_Z l
   /\ snd xy == (inject_Z size - inject_Z (b - t)) / 2 - inject_Z t)%Q.
Proof.
  cbn [draw_origin fst snd]. unfold Z.sub.
  rewrite !inject_Z_plus, !inject_Z_opp. split; field.
Qed.



(** X12. The origin Python computes in binary64 is the rational origin:
    for a canvas and a box below [2^50] in size, no operation rounds. *)
Lemma draw_origin_binary64_exact (size : Z) (f : font) (t : string) :
  let '(l, top, r, b) := font_bbox f t in
  Z.abs (size - (r - l)) < 2 ^ 52 -> Z.abs l < 2 ^ 51 ->
  Z.abs (size - (b - top)) < 2 ^ 52 -> Z.abs top < 2 ^ 51 ->
  exists fx fy qx qy,
    draw_origin_binary64 size (font_bbox f t) = Ok (fx, fy)
    /\ Q_of_float fx = Some qx
    /\ Q_of_float fy = Some qy
    /\ (qx == fst (draw_origin size (textbbox (0, 0) t f)))%Q
    /\ (qy == snd (draw_origin size (textbbox (0, 0) t f)))%Q.
Proof.
  unfold textbbox. destruct (font_bbox f t) as [[[l top] r] b].
  intros Hw Hl Hh Ht. cbn [fst snd].
  destruct (draw_origin_formula size l top r b) as [Hx Hy].
  destruct (half_minus_exact (size - (r - l)) l Hw Hl) as (fx & qx & Hfx & Hqx & Hvx).
  destruct (half_minus_exact (size - (b - top)) top Hh Ht) as (fy & qy & Hfy & Hqy & Hvy).
  exists fx, fy, qx, qy. unfold draw_origin_binary64.
  rewrite Hfx. cbn [mbind result_bind]. rewrite Hfy. cbn [mbind result_bind].
  split; [reflexivity |]. split; [assumption |]. split; [assumption |].
  rewrite Hx, Hy, Hvx, Hvy. unfold Z.sub.
  repeat first [rewrite inject_Z_plus | rewrite inject_Z_opp].
  split; field.
Qed.



(** The canvas size that suits every entry of [ICON_SIZES]. *)
Lemma ICON_SIZES_bounds (filename : string) (dimension : Z) :
  In (filename, dimension) ICON_SIZES -> 0 < dimension < 2 ^ 48.
Proof.
  unfold ICON_SIZES. cbn [In]. intros H.
  repeat (destruct H as [H | H]; [injection H as _ <-; split; reflexivity |]).
  contradiction.
Qed.

Lemma render_icon_total (filename : string) (dimension : Z)
    (font_path : option string) :
  In (filename, dimension) ICON_SIZES ->
  (forall fsize e,
     truetype E font_path fsize = Raise e -> is_OSError e = true) ->
  exists img, render_icon E dimension font_path = Ok img.
Proof.
  intros Hin Hload. apply ICON_SIZES_bounds in Hin.
  destruct (load_font_total font_path (Z.max (45 * dimension / 100) 8))
    as [f Hf]; [apply Hload |].
  eexists. apply render_icon_intro with (fsize := Z.max (45 * dimension / 100) 8);
    [lia | | exact Hf].
  rewrite font_size_truncates, Z.quot_div_nonneg by lia. reflexivity.
Qed.






End Rendering.

(** *** The renderer on the example machines *)






Lemma builtin_font_mask_in_bbox (t : string) : mask_in_bbox builtin_font t.
Proof.
  intros i j. cbn [builtin_font font_mask font_bbox]. unfold in_box.
  destruct (0 <=? i) eqn:H1; [| intros H; contradiction H; reflexivity].
  destruct (i <? _) eqn:H2; [| intros H; contradiction H; reflexivity].
  destruct (0 <=? j) eqn:H3; [| intros H; contradiction H; reflexivity].
  destruct (j <? 11) eqn:H4; [| intros H; contradiction H; reflexivity].
  intros _. lia.
Qed.


Lemma corner_of_smallest_icons :
  getpixel icon_16_mono (0, 0) = Some (0, 0, 170, 255)
  /\ getpixel icon_16_builtin (0, 0) = Some (0, 0, 170, 255)
  /\ getpixel icon_16_mono (8, 8) = Some (255, 255, 255, 255).
Proof. repeat split; vm_compute; reflexivity. Qed.

(** On the ten icon sizes, with the fonts of the examples, the origin
    computed in binary64 is the rational origin: the halves are exact. *)
Lemma draw_origin_exact_on_ICON_SIZES :
  forallb (fun entry =>
             match font_size (snd entry) with
             | Ok fsize =>
                 origin_is_exact (snd entry) (mono_font fsize)
                 && origin_is_exact (snd entry) builtin_font
             | Raise _ => false
             end) ICON_SIZES = true.
Proof. vm_compute. reflexivity. Qed.

(** ** Runs of the program *)

Section Running.

Variable E : env.

Lemma extend_nil (w : world) : extend w [] = w.
Proof. destruct w as [fs l]. unfold extend. cbn. rewrite app_nil_r. reflexivity. Qed.

Lemma apply_writes_app (l1 l2 : list event) (fs : gmap string image) :
  apply_writes (l1 ++ l2) fs = apply_writes l2 (apply_writes l1 fs).
Proof. unfold apply_writes. apply fold_left_app. Qed.

Lemma extend_app (w : world) (l1 l2 : list event) :
  extend (extend w l1) l2 = extend w (l1 ++ l2).
Proof.
  unfold extend. cbn [files log].
  rewrite apply_writes_app, app_assoc. reflexivity.
Qed.

(** The loop does what its trace says. *)
Lemma generate_all_trace (font_path : option string)
    (sizes : list (string * Z)) (w : world) :
  generate_all E font_path sizes w
  = (extend w (fst (batch_trace E font_path sizes)),
     snd (batch_trace E font_path sizes)).
Proof.
  revert w. induction sizes as [| [filename size] rest IH]; intros w.
  - cbn. rewrite extend_nil. reflexivity.
  - unfold generate_all in *. cbn [for_each batch_trace].
    unfold mbind at 1, IO_bind. unfold generate_one.
    unfold mbind at 1, IO_bind, lift.
    destruct (render_icon E size font_path) as [img | e].
    + unfold mbind at 1, IO_bind, save.
      destruct (write_error E (path_join (iconset_dir E) [filename])) as [e |].
      * unfold lift. cbn [fst snd]. rewrite extend_nil. reflexivity.
      * unfold print, emit. cbn [files log].
        rewrite IH.
        destruct (batch_trace E font_path rest) as [events r]. cbn [fst snd].
        f_equal. unfold extend. cbn [files log apply_writes fold_left].
        rewrite <- !app_assoc. reflexivity.
    + cbn [fst snd]. rewrite extend_nil. reflexivity.
Qed.

Lemma package_trace_correct (w : world) :
  package E w = (extend w (fst (package_trace E)), snd (package_trace E)).
Proof.
  unfold package, package_trace.
  unfold mbind at 1, IO_bind, print, emit.
  unfold mbind at 1, IO_bind, subprocess_run.
  destruct (iconutil E (iconutil_argv E)) as [[rc err] | e].
  - cbn [files log].
    destruct (negb (rc =? 0)).
    + unfold mbind at 1, IO_bind. unfold mbind at 1, IO_bind.
      unfold print_err, emit, sys_exit, lift. cbn [files log fst snd].
      f_equal. unfold extend. cbn [files log apply_writes fold_left].
      rewrite <- !app_assoc. reflexivity.
    + unfold mbind at 1, IO_bind, mret, IO_ret, print, emit.
      cbn [files log fst snd].
      f_equal. unfold extend. cbn [files log apply_writes fold_left].
      rewrite <- !app_assoc. reflexivity.
  - unfold lift. cbn [fst snd files log]. reflexivity.
Qed.

(** The whole program does what its trace says. *)
Lemma main_trace_correct (w : world) :
  main E w = (extend w (fst (main_trace E)), snd (main_trace E)).
Proof.
  unfold main, main_trace.
  unfold mbind at 1, IO_bind, makedirs.
  destruct (makedirs_error E (iconset_dir E)) as [e |].
  - unfold lift. cbn [fst snd]. rewrite extend_nil. reflexivity.
  - unfold emit at 1.
    unfold mbind at 1, IO_bind.
    set (w1 := {| files := files w; log := log w ++ [EMakedirs (iconset_dir E)] |}).
    assert (Hwarn :
      (if negb (truthy (find_monospace_font E))
       then print_err "Warning: No monospace font found, using default"
       else mret tt) w1 = (extend w1 (warning E), Ok tt)).
    { unfold warning. destruct (negb (truthy (find_monospace_font E))).
      - reflexivity.
      - unfold mret, IO_ret. rewrite extend_nil. reflexivity. }
    rewrite Hwarn.
    unfold mbind at 1, IO_bind. rewrite generate_all_trace.
    destruct (batch_trace E (find_monospace_font E) ICON_SIZES) as [events r].
    cbn [fst snd].
    assert (Hw1 : w1 = extend w [EMakedirs (iconset_dir E)]) by reflexivity.
    destruct r as [[] | e].
    + rewrite package_trace_correct.
      destruct (package_trace E) as [pevents pr]. cbn [fst snd].
      rewrite Hw1, !extend_app. reflexivity.
    + cbn [fst snd]. rewrite Hw1, !extend_app. reflexivity.
Qed.

(** *** Writing files *)

Lemma apply_writes_lookup (events : list event) (fs : gmap string image)
    (path : string) :
  apply_writes events fs !! path
  = match last_write events path with
    | Some img => Some img
    | None => fs !! path
    end.
Proof.
  revert fs. induction events as [| e rest IH]; intros fs; [reflexivity |].
  change (apply_writes (e :: rest) fs)
    with (apply_writes rest (apply_writes [e] fs)).
  rewrite IH. cbn [last_write].
  destruct (last_write rest path); [reflexivity |].
  destruct e as [d | p img | line | line | argv rc err]; try reflexivity.
  cbn [apply_writes fold_left].
  destruct (String.eqb_spec p path) as [-> | Hne].
  - apply lookup_insert_eq.
  - apply lookup_insert_ne. assumption.
Qed.

Lemma apply_writes_idempotent (events : list event) (fs : gmap string image) :
  apply_writes events (apply_writes events fs) = apply_writes events fs.
Proof.
  apply map_eq. intros path. rewrite !apply_writes_lookup.
  destruct (last_write events path); reflexivity.
Qed.




(** *** The order of events *)


Lemma size_eqb_refl (a : Z * Z) : size_eqb a a = true.
Proof. unfold size_eqb. rewrite !Z.eqb_refl. reflexivity. Qed.

Lemma written_write (path : string) (img : image) (events : list event) :
  written (EWrite path img :: events) = (path, im_size img) :: written events.
Proof. reflexivity. Qed.

Lemma written_stdout (line : string) (events : list event) :
  written (EStdout line :: events) = written events.
Proof. reflexivity. Qed.

(** The loop writes the entries in list order; the machine follows it to
    [ImagesWritten] when the loop completes, and stays in
    [DirectoryPrepared], with entries pending, when it is aborted. *)
Lemma batch_observed (font_path : option string) (sizes : list (string * Z)) :
  sizes <> [] ->
  exists done pending,
    sizes = done ++ pending
    /\ written (fst (batch_trace E font_path sizes)) = expected_outputs E done
    /\ runs (fst (batch_trace E font_path sizes)) = []
    /\ observe_all E (DirectoryPrepared, sizes)
         (fst (batch_trace E font_path sizes))
       = Some (match pending with
               | [] => ImagesWritten
               | _ => DirectoryPrepared
               end, pending)
    /\ (pending = [] <-> snd (batch_trace E font_path sizes) = Ok tt).
Proof.
  induction sizes as [| [filename size] rest IH]; [congruence |]. intros _.
  cbn [batch_trace].
  destruct (render_icon E size font_path) as [img | e] eqn:Himg.
  2:{ exists [], ((filename, size) :: rest). cbn.
      repeat split; intros; discriminate. }
  destruct (write_error E (path_join (iconset_dir E) [filename])) as [e |].
  { exists [], ((filename, size) :: rest). cbn [fst snd].
    repeat split; intros; discriminate. }
  apply render_icon_size in Himg as [Hsize _].
  destruct rest as [| entry rest'].
  - exists [(filename, size)], []. cbn [batch_trace fst snd].
    split; [reflexivity |]. split; [cbn; rewrite Hsize; reflexivity |].
    split; [reflexivity |]. split; [| tauto].
    cbn [observe_all observe]. rewrite String.eqb_refl, Hsize, size_eqb_refl.
    reflexivity.
  - destruct IH as (done & pending & Hsplit & Hwritten & Hruns & Hobs & Hend);
      [discriminate |].
    destruct (batch_trace E font_path (entry :: rest')) as [events r].
    cbn [fst snd] in *.
    exists ((filename, size) :: done), pending.
    split; [rewrite Hsplit; reflexivity |].
    split; [rewrite written_write, written_stdout, Hsize, Hwritten;
            reflexivity |].
    split; [exact Hruns |]. split; [| exact Hend].
    cbn [observe_all observe]. rewrite String.eqb_refl, Hsize, size_eqb_refl.
    cbn [andb]. exact Hobs.
Qed.


Lemma written_app (l1 l2 : list event) :
  written (l1 ++ l2) = written l1 ++ written l2.
Proof. apply omap_app. Qed.

Lemma runs_app (l1 l2 : list event) : runs (l1 ++ l2) = runs l1 ++ runs l2.
Proof. apply omap_app. Qed.

Lemma warning_quiet : written (warning E) = [] /\ runs (warning E) = [].
Proof.
  unfold warning. destruct (negb (truthy (find_monospace_font E))); auto.
Qed.

(** The five ways a run can go. *)
Lemma main_trace_cases :
  let dir := iconset_dir E in
  let argv := iconutil_argv E in
  let batch := batch_trace E (find_monospace_font E) ICON_SIZES in
  (exists e, makedirs_error E dir = Some e /\ main_trace E = ([], Raise e))
  \/ (exists e,
        snd batch = Raise e
        /\ main_trace E = (EMakedirs dir :: warning E ++ fst batch, Raise e))
  \/ (exists e,
        snd batch = Ok tt /\ iconutil E argv = Raise e
        /\ main_trace E
           = (EMakedirs dir :: warning E ++ fst batch
                ++ [EStdout (creating_line E)], Raise e))
  \/ (exists rc err,
        snd batch = Ok tt /\ iconutil E argv = Ok (rc, err) /\ rc <> 0
        /\ main_trace E
           = (EMakedirs dir :: warning E ++ fst batch
                ++ [EStdout (creating_line E); ERun argv rc err;
                    EStderr (error_line err)], Raise (SystemExit 1)))
  \/ (exists err,
        snd batch = Ok tt /\ iconutil E argv = Ok (0, err)
        /\ main_trace E
           = (EMakedirs dir :: warning E ++ fst batch
                ++ [EStdout (creating_line E); ERun argv 0 err;
                    EStdout (created_line E)], Ok tt)).
Proof.
  cbn zeta. unfold main_trace.
  destruct (makedirs_error E (iconset_dir E)) as [e |]; [left; eauto |].
  right.
  destruct (batch_trace E (find_monospace_font E) ICON_SIZES) as [events r].
  cbn [fst snd]. destruct r as [[] | e]; [| left; eauto].
  right. unfold package_trace.
  destruct (iconutil E (iconutil_argv E)) as [[rc err] | e]; [| left; eauto].
  right. destruct (Z.eqb_spec rc 0) as [-> | Hrc]; cbn [negb].
  - right. eauto.
  - left. exists rc, err. auto.
Qed.

Lemma In_runs (events : list event) (argv : list string) (rc : Z)
    (err : string) :
  In (ERun argv rc err) events -> In (argv, rc, err) (runs events).
Proof.
  induction events as [| e rest IH]; [contradiction |].
  intros [-> | H].
  - left. reflexivity.
  - destruct e; try (apply IH; assumption). right. apply IH. assumption.
Qed.

Lemma runs_In (events : list event) (argv : list string) (rc : Z)
    (err : string) :
  In (argv, rc, err) (runs events) -> In (ERun argv rc err) events.
Proof.
  induction events as [| e rest IH]; [intros [] |].
  destruct e as [d | p img | line | line | argv' rc' err'];
    try (intros H; right; apply IH; exact H).
  intros [[= -> -> ->] | H]; [left; reflexivity | right; apply IH; exact H].
Qed.

Lemma batch_quiet (font_path : option string) (sizes : list (string * Z)) :
  runs (fst (batch_trace E font_path sizes)) = [].
Proof.
  induction sizes as [| [filename size] rest IH]; [reflexivity |].
  cbn [batch_trace].
  destruct (render_icon E size font_path); [| reflexivity].
  destruct (write_error E _); [reflexivity |].
  destruct (batch_trace E font_path rest). exact IH.
Qed.

Lemma runs_before_packaging (events : list event) :
  runs (EMakedirs (iconset_dir E) :: warning E
        ++ fst (batch_trace E (find_monospace_font E) ICON_SIZES) ++ events)
  = runs events.
Proof.
  change (runs (EMakedirs ?d :: ?l)) with (runs l).
  rewrite !runs_app, (proj2 warning_quiet), batch_quiet. reflexivity.
Qed.

Lemma last_after (front : list event) (a b c : event) :
  last (front ++ [a; b; c]) = Some c.
Proof.
  change [a; b; c] with ([a; b] ++ [c]). rewrite app_assoc. apply last_snoc.
Qed.

(** C4. When the packaging tool has been run, it has been run once, with
    the result the machine gives for it. If it returned 0 the program
    ends normally, with exit status 0, and its last line of output
    reports the bundle path as created. If it returned another code the
    program prints the captured standard error on its error stream and
    exits with status 1; nothing is tried again. *)
Theorem main_exit_status (fs : gmap string image) (argv : list string)
    (rc : Z) (err : string) :
  In (ERun argv rc err) (log (fst (run E fs))) ->
  argv = iconutil_argv E
  /\ iconutil E (iconutil_argv E) = Ok (rc, err)
  /\ runs (log (fst (run E fs))) = [(iconutil_argv E, rc, err)]
  /\ (rc = 0 ->
      snd (run E fs) = Ok tt
      /\ exit_status (snd (run E fs)) = 0
      /\ last (log (fst (run E fs)))
         = Some (EStdout ("  App icon created: " +:+ icns_path E)))
  /\ (rc <> 0 ->
      snd (run E fs) = Raise (SystemExit 1)
      /\ exit_status (snd (run E fs)) = 1
      /\ last (log (fst (run E fs)))
         = Some (EStderr ("Error running iconutil: " +:+ err))).
Proof.
  unfold run. rewrite main_trace_correct. cbn [fst snd extend log app].
  intros Hin. apply In_runs in Hin.
  destruct main_trace_cases
    as [(e & _ & Hmt) | [(e & _ & Hmt) | [(e & _ & _ & Hmt)
       | [(rc' & err' & _ & Htool & Hrc & Hmt) | (err' & _ & Htool & Hmt)]]]];
    rewrite Hmt in Hin |- *; cbn [fst snd] in Hin |- *.
  - destruct Hin.
  - rewrite <- (app_nil_r (fst _)), runs_before_packaging in Hin.
    destruct Hin.
  - rewrite runs_before_packaging in Hin. destruct Hin.
  - rewrite runs_before_packaging in Hin |- *.
    destruct Hin as [Heq | []]. injection Heq as <- <- <-.
    split; [reflexivity |]. split; [exact Htool |]. split; [reflexivity |].
    split; [intros H0; contradiction |]. intros _.
    split; [reflexivity |]. split; [reflexivity |].
    rewrite app_comm_cons, app_assoc. apply last_after.
  - rewrite runs_before_packaging in Hin |- *.
    destruct Hin as [Heq | []]. injection Heq as <- <- <-.
    split; [reflexivity |]. split; [exact Htool |]. split; [reflexivity |].
    split; [| intros H0; contradiction H0; reflexivity]. intros _.
    split; [reflexivity |]. split; [reflexivity |].
    rewrite app_comm_cons, app_assoc. apply last_after.
Qed.






Lemma written_before_packaging (events : list event) :
  written (EMakedirs (iconset_dir E) :: warning E
           ++ fst (batch_trace E (find_monospace_font E) ICON_SIZES)
           ++ events)
  = written (fst (batch_trace E (find_monospace_font E) ICON_SIZES))
    ++ written events.
Proof.
  change (written (EMakedirs ?d :: ?l)) with (written l).
  rewrite !written_app, (proj1 warning_quiet). reflexivity.
Qed.


(** *** Runs that complete *)

Lemma batch_trace_completes (font_path : option string)
    (sizes : list (string * Z)) :
  (forall filename size, In (filename, size) sizes ->
     exists img, render_icon E size font_path = Ok img) ->
  (forall path, write_error E path = None) ->
  snd (batch_trace E font_path sizes) = Ok tt.
Proof.
  intros Hrender Hwrite.
  induction sizes as [| [filename size] rest IH]; [reflexivity |].
  cbn [batch_trace].
  destruct (Hrender filename size) as [img ->]; [left; reflexivity |].
  rewrite Hwrite.
  destruct (batch_trace E font_path rest) as [events r]. cbn [snd] in *.
  apply IH. intros f d Hin. apply (Hrender f d). right. exact Hin.
Qed.

(** X13. When the directory can be made, the files can be written, the
    font loads or fails with an [OSError], and the tool can be started,
    the run writes the ten images and runs the tool. *)
Lemma main_completes (fs : gmap string image) (rc : Z) (err : string) :
  makedirs_error E (iconset_dir E) = None ->
  (forall path, write_error E path = None) ->
  (forall fsize e,
     truetype E (find_monospace_font E) fsize = Raise e ->
     is_OSError e = true) ->
  iconutil E (iconutil_argv E) = Ok (rc, err) ->
  In (ERun (iconutil_argv E) rc err) (log (fst (run E fs)))
  /\ written (log (fst (run E fs))) = expected_outputs E ICON_SIZES.
Proof.
  intros Hdir Hwrite Hload Htool.
  assert (Hbatch : snd (batch_trace E (find_monospace_font E) ICON_SIZES)
                   = Ok tt).
  { apply batch_trace_completes; [| exact Hwrite].
    intros filename size Hin. eapply render_icon_total; eassumption. }
  destruct (batch_observed (find_monospace_font E) ICON_SIZES)
    as (done & pending & Hsplit & Hwritten & _ & _ & Hend); [discriminate |].
  assert (Hpending : pending = []) by (apply Hend; exact Hbatch).
  subst pending. rewrite app_nil_r in Hsplit. subst done.
  unfold run. rewrite main_trace_correct. cbn [fst snd extend log app].
  destruct main_trace_cases
    as [(e & He & _) | [(e & He & _) | [(e & _ & He & _)
       | [(rc' & err' & _ & Htool' & _ & Hmt) | (err' & _ & Htool' & Hmt)]]]];
    try congruence;
    rewrite Htool in Htool'; injection Htool' as Hrc Herr; subst;
    rewrite Hmt; cbn [fst];
    (split;
     [ apply runs_In; rewrite runs_before_packaging; left; reflexivity
     | rewrite written_before_packaging, Hwritten; apply app_nil_r ]).
Qed.

(** A second run of the whole program, on the disk the first left,
    does the same and leaves the disk as it is. *)
Lemma run_idempotent (fs : gmap string image) :
  snd (run E (files (fst (run E fs)))) = snd (run E fs)
  /\ log (fst (run E (files (fst (run E fs))))) = log (fst (run E fs))
  /\ files (fst (run E (files (fst (run E fs))))) = files (fst (run E fs)).
Proof.
  unfold run. rewrite !main_trace_correct. cbn [fst snd extend files log app].
  split; [reflexivity |]. split; [reflexivity |].
  apply apply_writes_idempotent.
Qed.

End Running.

(** *** Runs on the example machines *)

Lemma main_exit_status_witness :
  In (ERun (iconutil_argv mac_bad_tool) 1 "bad format")
     (log (fst (run mac_bad_tool ∅)))
  /\ iconutil_argv mac_bad_tool = iconutil_argv mac_bad_tool
  /\ iconutil mac_bad_tool (iconutil_argv mac_bad_tool) = Ok (1, "bad format")
  /\ runs (log (fst (run mac_bad_tool ∅)))
     = [(iconutil_argv mac_bad_tool, 1, "bad format")]
  /\ (1 = 0 ->
      snd (run mac_bad_tool ∅) = Ok tt
      /\ exit_status (snd (run mac_bad_tool ∅)) = 0
      /\ last (log (fst (run mac_bad_tool ∅)))
         = Some (EStdout ("  App icon created: " +:+ icns_path mac_bad_tool)))
  /\ (1 <> 0 ->
      snd (run mac_bad_tool ∅) = Raise (SystemExit 1)
      /\ exit_status (snd (run mac_bad_tool ∅)) = 1
      /\ last (log (fst (run mac_bad_tool ∅)))
         = Some (EStderr ("Error running iconutil: " +:+ "bad format"))).
Proof.
  assert (H : In (ERun (iconutil_argv mac_bad_tool) 1 "bad format")
                (log (fst (run mac_bad_tool ∅)))).
  { apply runs_In. vm_compute. left. reflexivity. }
  split; [exact H |].
  exact (main_exit_status mac_bad_tool ∅ (iconutil_argv mac_bad_tool) 1
           "bad format" H).
Defined.

(** The tool returns 1 with "bad format" on its error stream: the
    program exits with status 1 and prints that text. *)
Lemma run_bad_tool :
  exit_status (snd (run mac_bad_tool ∅)) = 1
  /\ last (log (fst (run mac_bad_tool ∅)))
     = Some (EStderr "Error running iconutil: bad format").
Proof. split; vm_compute; reflexivity. Qed.

(** The tool returns 0: the program exits with status 0 and reports the
    bundle. *)
Lemma run_good_tool :
  exit_status (snd (run mac ∅)) = 0
  /\ last (log (fst (run mac ∅)))
     = Some (EStdout
               "  App icon created: /repo/Sources/BlueScreenOfDeath/Resources/AppIcon.icns")
  /\ written (log (fst (run mac ∅))) = expected_outputs mac ICON_SIZES.
Proof. repeat split; vm_compute; reflexivity. Qed.

(** The disk fills up at the third image: the two images written stay,
    the tool is not run, the run ends with the error. *)
Lemma run_disk_full :
  snd (run mac_disk_full ∅) = Raise OSError
  /\ written (log (fst (run mac_disk_full ∅)))
     = expected_outputs mac_disk_full (take 2 ICON_SIZES)
  /\ runs (log (fst (run mac_disk_full ∅))) = []
  /\ observe_all mac_disk_full (Start, ICON_SIZES)
       (log (fst (run mac_disk_full ∅)))
     = Some (DirectoryPrepared, drop 2 ICON_SIZES).
Proof. repeat split; vm_compute; reflexivity. Qed.

(** ** More on the font size and the renderer *)

(** X9. Below [2^48] in magnitude the font size is at least 8, it grows
    with the canvas size, it is 8 exactly for the sizes under 20, and
    from 20 on it is the integer part of 45% of the size. *)
Theorem font_size_floor_and_monotone (a b : Z) :
  - 2 ^ 48 < a -> a <= b -> b < 2 ^ 48 ->
  exists fa fb,
    font_size a = Ok fa /\ font_size b = Ok fb
    /\ 8 <= fa <= fb
    /\ (fa = 8 <-> a < 20)
    /\ (20 <= a -> 100 * fa <= 45 * a < 100 * (fa + 1)).
Proof.
  intros Ha Hab Hb.
  rewrite (font_size_truncates a), (font_size_truncates b) by lia.
  eexists _, _. split; [reflexivity |]. split; [reflexivity |].
  assert (Hmono : (45 * a) ÷ 100 <= (45 * b) ÷ 100).
  { destruct (Z_le_gt_dec 0 a) as [Ha0 | Ha0].
    - rewrite !Z.quot_div_nonneg by lia. apply Z.div_le_mono; lia.
    - destruct (Z_le_gt_dec 0 b) as [Hb0 | Hb0].
      + transitivity 0.
        * apply Z.quot_le_upper_bound; lia.
        * apply Z.quot_pos; lia.
      + pose proof (Z.quot_opp_l (45 * - a) 100 ltac:(lia)) as Hqa.
        pose proof (Z.quot_opp_l (45 * - b) 100 ltac:(lia)) as Hqb.
        replace (- (45 * - a)) with (45 * a) in Hqa by ring.
        replace (- (45 * - b)) with (45 * b) in Hqb by ring.
        rewrite Hqa, Hqb, !Z.quot_div_nonneg by lia.
        apply Z.opp_le_mono. rewrite !Z.opp_involutive.
        apply Z.div_le_mono; lia. }
  split; [lia |].
  assert (Hfloor : (45 * a) ÷ 100 <= 8 <-> a < 20).
  { destruct (Z_le_gt_dec 0 a) as [Ha0 | Ha0].
    - rewrite Z.quot_div_nonneg by lia.
      pose proof (Z.div_mod (45 * a) 100 ltac:(lia)).
      pose proof (Z.mod_pos_bound (45 * a) 100 ltac:(lia)). lia.
    - split; [lia |]. intros _. transitivity 0; [| lia].
      apply Z.quot_le_upper_bound; lia. }
  split; [lia |].
  intros H20. rewrite Z.quot_div_nonneg in * by lia.
  pose proof (Z.div_mod (45 * a) 100 ltac:(lia)).
  pose proof (Z.mod_pos_bound (45 * a) 100 ltac:(lia)).
  assert (8 < 45 * a / 100) by lia. lia.
Qed.

Lemma font_size_floor_and_monotone_witness :
  exists fa fb,
    font_size 16 = Ok fa /\ font_size 1024 = Ok fb
    /\ 8 <= fa <= fb
    /\ (fa = 8 <-> 16 < 20)
    /\ (20 <= 16 -> 100 * fa <= 45 * 16 < 100 * (fa + 1)).
Proof. apply (font_size_floor_and_monotone 16 1024); lia. Defined.

Section Canvas.
Variable E : env.

(** X11. A negative size makes the renderer raise [ValueError] whatever
    the font: the canvas is allocated before the font is loaded. *)
Theorem render_icon_negative_size (size : Z) (font_path : option string) :
  size < 0 -> render_icon E size font_path = Raise ValueError.
Proof.
  intros Hsize. unfold render_icon.
  rewrite Image_new_negative by exact Hsize. reflexivity.
Qed.





End Canvas.

Lemma render_icon_negative_size_witness :
  -1 < 0 /\ render_icon mac (-1) (Some menlo) = Raise ValueError.
Proof.
  split; [reflexivity |].
  apply (render_icon_negative_size mac (-1) (Some menlo)). reflexivity.
Defined.


Lemma draw_origin_binary64_exact_witness :
  font_bbox builtin_font "0x" = (0, 0, 12, 11)
  /\ Z.abs (16 - (12 - 0)) < 2 ^ 52 /\ Z.abs 0 < 2 ^ 51
  /\ Z.abs (16 - (11 - 0)) < 2 ^ 52
  /\ exists fx fy qx qy,
       draw_origin_binary64 16 (font_bbox builtin_font "0x") = Ok (fx, fy)
       /\ Q_of_float fx = Some qx
       /\ Q_of_float fy = Some qy
       /\ (qx == fst (draw_origin 16 (textbbox (0, 0) "0x" builtin_font)))%Q
       /\ (qy == snd (draw_origin 16 (textbbox (0, 0) "0x" builtin_font)))%Q.
Proof.
  split; [reflexivity |]. split; [reflexivity |]. split; [reflexivity |].
  split; [reflexivity |].
  apply (draw_origin_binary64_exact 16 builtin_font "0x"); reflexivity.
Defined.

(** ** The paths of the outputs *)

Section Paths.

Lemma get_last_app (a t : string) :
  t <> "" ->
  String.get (String.length (a +:+ t) - 1) (a +:+ t)
  = String.get (String.length t - 1) t.
Proof.
  intros Ht. induction a as [| c a IH]; [reflexivity |].
  change (String c a +:+ t) with (String c (a +:+ t)).
  cbn [String.length].
  assert (Hlen : String.length (a +:+ t) <> 0%nat).
  { destruct a; [destruct t; [congruence | discriminate] | discriminate]. }
  rewrite <- IH.
  destruct (String.length (a +:+ t)) as [| n] eqn:Hn; [congruence |].
  replace (S (S n) - 1)%nat with (S n) by lia.
  replace (S n - 1)%nat with n by lia. reflexivity.
Qed.

Lemma append_nonempty (a t : string) : t <> "" -> a +:+ t <> "".
Proof. intros Ht. destruct a; [exact Ht | discriminate]. Qed.

Lemma append_assoc (a b c : string) : (a +:+ b) +:+ c = a +:+ (b +:+ c).
Proof.
  induction a as [| x a IH]; [reflexivity |].
  change (String x (a +:+ b) +:+ c = String x (a +:+ (b +:+ c))).
  change (String x ((a +:+ b) +:+ c) = String x (a +:+ (b +:+ c))).
  rewrite IH. reflexivity.
Qed.

(** Joining a component that does not begin with a separator appends
    it, after a separator unless the path is empty or ends with one. *)
Lemma join1_relative (path b : string) :
  String.prefix "/" b = false ->
  exists sep, (sep = "" \/ sep = "/") /\ join1 path b = path +:+ sep +:+ b
              /\ forall b', String.prefix "/" b' = false ->
                   join1 path b' = path +:+ sep +:+ b'.
Proof.
  intros Hb. unfold join1. rewrite Hb.
  destruct (String.eqb path "" || endswith_sep path).
  - exists "". split; [left; reflexivity |]. split; [reflexivity |].
    intros b' ->. reflexivity.
  - exists "/". split; [right; reflexivity |]. split; [reflexivity |].
    intros b' ->. reflexivity.
Qed.

(** A path that ends with a name is not empty and does not end with a
    separator, so a component joined to it comes after one separator. *)
Lemma join1_after_name (a name b : string) (c : ascii) :
  String.get (String.length name - 1) name = Some c ->
  Ascii.eqb c "/" = false ->
  String.prefix "/" b = false ->
  join1 (a +:+ name) b = (a +:+ name) +:+ "/" +:+ b.
Proof.
  intros Hlast Hc Hb.
  assert (Hname : name <> "") by (intros ->; discriminate).
  unfold join1, endswith_sep. rewrite Hb, get_last_app, Hlast, Hc by assumption.
  destruct (String.eqb_spec (a +:+ name) "") as [He | _].
  - exfalso. exact (append_nonempty a name Hname He).
  - reflexivity.
Qed.

Lemma resources_dir_name (E : env) :
  exists a, resources_dir E = a +:+ "Resources".
Proof.
  unfold resources_dir, path_join. cbn [fold_left].
  destruct (join1_relative (join1 (join1 (project_root E) "Sources")
                              "BlueScreenOfDeath") "Resources")
    as (sep & _ & -> & _); [reflexivity |].
  eexists. rewrite <- append_assoc. reflexivity.
Qed.

Lemma iconset_dir_eq (E : env) :
  iconset_dir E = resources_dir E +:+ "/AppIcon.iconset".
Proof.
  destruct (resources_dir_name E) as [a Ha].
  unfold iconset_dir, path_join. cbn [fold_left]. rewrite Ha.
  rewrite (join1_after_name a "Resources" "AppIcon.iconset" "s");
    reflexivity.
Qed.

Lemma icns_path_eq (E : env) :
  icns_path E = resources_dir E +:+ "/AppIcon.icns".
Proof.
  destruct (resources_dir_name E) as [a Ha].
  unfold icns_path, path_join. cbn [fold_left]. rewrite Ha.
  rewrite (join1_after_name a "Resources" "AppIcon.icns" "s");
    reflexivity.
Qed.

Lemma out_path_eq (E : env) (filename : string) :
  String.prefix "/" filename = false ->
  path_join (iconset_dir E) [filename]
  = iconset_dir E +:+ "/" +:+ filename.
Proof.
  intros Hf. rewrite iconset_dir_eq. unfold path_join. cbn [fold_left].
  rewrite (join1_after_name (resources_dir E) "/AppIcon.iconset" filename "t");
    [reflexivity | reflexivity | reflexivity | exact Hf].
Qed.

End Paths.

Section Outputs.
Variable E : env.

Lemma expected_outputs_ICON_SIZES :
  map fst (expected_outputs E ICON_SIZES)
  = map (fun name => iconset_dir E +:+ "/" +:+ name) (map fst ICON_SIZES).
Proof.
  unfold expected_outputs, ICON_SIZES. cbn [map fst].
  rewrite !out_path_eq by reflexivity. reflexivity.
Qed.

Lemma output_paths_distinct : NoDup (map fst (expected_outputs E ICON_SIZES)).
Proof.
  rewrite expected_outputs_ICON_SIZES.
  apply NoDup_ListNoDup, Finite.Injective_map_NoDup; [| apply NoDup_ListNoDup].
  - intros a b H. apply (inj (String.append "/")), (inj (String.append (iconset_dir E))).
    exact H.
  - apply (bool_decide_unpack _). vm_compute. exact I.
Qed.

Lemma last_write_None (events : list event) (path : string) :
  ~ In path (map fst (written events)) -> last_write events path = None.
Proof.
  induction events as [| e rest IH]; [reflexivity |].
  destruct e as [d | p img | line | line | argv rc err]; cbn [last_write];
    try (intros H; rewrite IH by exact H; reflexivity).
  rewrite written_write. cbn [map fst In]. intros H.
  rewrite IH by tauto.
  destruct (String.eqb_spec p path) as [-> | _]; [tauto | reflexivity].
Qed.

Lemma last_write_unique (events : list event) (path : string) (img : image) :
  NoDup (map fst (written events)) ->
  In (EWrite path img) events ->
  last_write events path = Some img.
Proof.
  induction events as [| e rest IH]; [intros _ [] |].
  destruct e as [d | p img0 | line | line | argv rc err]; cbn [last_write];
    try (intros Hnd [Heq | Hin]; [discriminate | rewrite IH by assumption; reflexivity]).
  rewrite written_write. cbn [map fst]. intros Hnd Hin.
  apply NoDup_cons in Hnd as [Hfresh Hnd].
  destruct Hin as [[= -> ->] | Hin].
  - rewrite last_write_None by (rewrite <- list_elem_of_In; exact Hfresh).
    rewrite String.eqb_refl. reflexivity.
  - rewrite IH by assumption. reflexivity.
Qed.

Lemma batch_trace_writes (font_path : option string)
    (sizes : list (string * Z)) :
  snd (batch_trace E font_path sizes) = Ok tt ->
  written (fst (batch_trace E font_path sizes)) = expected_outputs E sizes
  /\ forall filename size, In (filename, size) sizes ->
       exists img,
         render_icon E size font_path = Ok img
         /\ In (EWrite (path_join (iconset_dir E) [filename]) img)
              (fst (batch_trace E font_path sizes)).
Proof.
  induction sizes as [| [f s] rest IH]; cbn [batch_trace].
  - intros _. split; [reflexivity | intros ? ? []].
  - destruct (render_icon E s font_path) as [img | e] eqn:Himg;
      [| discriminate].
    destruct (write_error E (path_join (iconset_dir E) [f]));
      [discriminate |].
    destruct (batch_trace E font_path rest) as [events r]. cbn [fst snd] in *.
    intros Hr. destruct (IH Hr) as [Hwritten Hin].
    apply render_icon_size in Himg as Hsize. destruct Hsize as [Hsize _].
    split.
    + rewrite written_write, written_stdout, Hsize, Hwritten. reflexivity.
    + intros filename size [[= <- <-] | Hrest].
      * exists img. split; [exact Himg | left; reflexivity].
      * destruct (Hin filename size Hrest) as (img' & Himg' & Hin').
        exists img'. split; [exact Himg' | right; right; exact Hin'].
Qed.

End Outputs.

(** ** The disk after a run *)

Section Disk.
Variable E : env.

(** X1. Whatever the project root, the icon set directory and the bundle
    are the resources directory followed by [/AppIcon.iconset] and
    [/AppIcon.icns], each image of [ICON_SIZES] goes to the icon set
    directory followed by one separator and its file name, and the ten
    output paths are pairwise distinct. *)
Theorem output_layout :
  iconset_dir E = resources_dir E +:+ "/AppIcon.iconset"
  /\ icns_path E = resources_dir E +:+ "/AppIcon.icns"
  /\ map fst (expected_outputs E ICON_SIZES)
     = map (fun entry => iconset_dir E +:+ "/" +:+ fst entry) ICON_SIZES
  /\ NoDup (map fst (expected_outputs E ICON_SIZES)).
Proof.
  split; [apply iconset_dir_eq |]. split; [apply icns_path_eq |].
  split; [| apply output_paths_distinct].
  rewrite expected_outputs_ICON_SIZES, map_map. reflexivity.
Qed.




(** X3. When [main] returns normally, the packaging tool was run exactly
    once and gave exit code 0, the ten images were written in list
    order, and each output path holds the rendering of its entry, an
    image of the entry's size. *)
Theorem successful_run_disk (fs : gmap string image) :
  snd (run E fs) = Ok tt ->
  (exists err, runs (log (fst (run E fs))) = [(iconutil_argv E, 0, err)])
  /\ written (log (fst (run E fs))) = expected_outputs E ICON_SIZES
  /\ forall filename size, In (filename, size) ICON_SIZES ->
       exists img,
         render_icon E size (find_monospace_font E) = Ok img
         /\ im_size img = (size, size)
         /\ files (fst (run E fs)) !! path_join (iconset_dir E) [filename]
            = Some img.
Proof.
  unfold run. rewrite main_trace_correct. cbn [fst snd extend log files app].
  destruct (main_trace_cases E)
    as [(e & _ & Hmt) | [(e & _ & Hmt) | [(e & _ & _ & Hmt)
       | [(rc & err & _ & _ & _ & Hmt) | (err & Hbatch & _ & Hmt)]]]];
    rewrite Hmt; cbn [fst snd]; try discriminate.
  intros _.
  destruct (batch_trace_writes E _ _ Hbatch) as [Hwritten Hin].
  assert (Hall : written
            (EMakedirs (iconset_dir E) :: warning E
             ++ fst (batch_trace E (find_monospace_font E) ICON_SIZES)
             ++ [EStdout (creating_line E); ERun (iconutil_argv E) 0 err;
                 EStdout (created_line E)])
          = expected_outputs E ICON_SIZES).
  { rewrite written_before_packaging, Hwritten. apply app_nil_r. }
  split; [exists err; rewrite runs_before_packaging; reflexivity |].
  split; [exact Hall |].
  intros filename size Hentry.
  destruct (Hin filename size Hentry) as (img & Himg & Hev).
  exists img. split; [exact Himg |].
  split; [apply (render_icon_size E) in Himg as [H _]; exact H |].
  rewrite apply_writes_lookup, (last_write_unique _ _ img); [reflexivity | |].
  - rewrite Hall. apply output_paths_distinct.
  - right. apply in_or_app. right. apply in_or_app. left. exact Hev.
Qed.

End Disk.


Lemma successful_run_disk_witness :
  snd (run mac ∅) = Ok tt
  /\ (exists err, runs (log (fst (run mac ∅))) = [(iconutil_argv mac, 0, err)])
  /\ written (log (fst (run mac ∅))) = expected_outputs mac ICON_SIZES
  /\ forall filename size, In (filename, size) ICON_SIZES ->
       exists img,
         render_icon mac size (find_monospace_font mac) = Ok img
         /\ im_size img = (size, size)
         /\ files (fst (run mac ∅)) !! path_join (iconset_dir mac) [filename]
            = Some img.
Proof.
  assert (H : snd (run mac ∅) = Ok tt) by (vm_compute; reflexivity).
  split; [exact H |].
  exact (successful_run_disk mac ∅ H).
Defined.

Lemma main_completes_witness :
  makedirs_error mac (iconset_dir mac) = None
  /\ (forall path, write_error mac path = None)
  /\ iconutil mac (iconutil_argv mac) = Ok (0, "")
  /\ In (ERun (iconutil_argv mac) 0 "") (log (fst (run mac ∅)))
  /\ written (log (fst (run mac ∅))) = expected_outputs mac ICON_SIZES.
Proof.
  split; [reflexivity |]. split; [reflexivity |]. split; [reflexivity |].
  apply (main_completes mac ∅ 0 "");
    [reflexivity | reflexivity | | reflexivity].
  intros fsize e H. vm_compute in H. discriminate H.
Defined.

(** ** The warning about the font *)

Section Diagnostics.
Variable E : env.

Lemma first_existing_None (exists_ : string -> bool) (paths : list string) :
  first_existing exists_ paths = None
  <-> Forall (fun q => exists_ q = false) paths.
Proof.
  induction paths as [| path rest IH]; cbn [first_existing].
  - split; [constructor | reflexivity].
  - destruct (exists_ path) eqn:Hpath.
    + split; [discriminate |]. intros H. apply Forall_cons in H as [H _].
      congruence.
    + rewrite IH. split.
      * intros H. constructor; assumption.
      * intros H. apply Forall_cons in H as [_ H]. exact H.
Qed.

Lemma first_existing_In (exists_ : string -> bool) (paths : list string)
    (path : string) :
  first_existing exists_ paths = Some path ->
  In path paths /\ exists_ path = true.
Proof.
  induction paths as [| p rest IH]; cbn [first_existing]; [discriminate |].
  destruct (exists_ p) eqn:Hp.
  - intros [= <-]. split; [left; reflexivity | exact Hp].
  - intros H. apply IH in H as [H1 H2]. split; [right; exact H1 | exact H2].
Qed.

(** The resolver returns nothing exactly when [bool] of its result is
    false: no candidate is the empty string. *)
Lemma truthy_find_monospace_font :
  truthy (find_monospace_font E) = false <-> find_monospace_font E = None.
Proof.
  split; [| intros ->; reflexivity].
  destruct (find_monospace_font E) as [path |] eqn:Hfind; [| reflexivity].
  apply first_existing_In in Hfind as [Hin _].
  unfold candidates in Hin. cbn [In] in Hin.
  repeat (destruct Hin as [<- | Hin]; [discriminate |]). contradiction.
Qed.

Lemma batch_only_writes (font_path : option string)
    (sizes : list (string * Z)) (line : string) :
  ~ In (EStderr line) (fst (batch_trace E font_path sizes)).
Proof.
  induction sizes as [| [f s] rest IH]; cbn [batch_trace]; [intros [] |].
  destruct (render_icon E s font_path); [| intros []].
  destruct (write_error E _); [intros [] |].
  destruct (batch_trace E font_path rest) as [events r]. cbn [fst] in *.
  intros [H | [H | H]]; [discriminate | discriminate | exact (IH H)].
Qed.

(** X4. When the icon set directory can be made, the warning about the
    missing font is printed on the error stream exactly when none of the
    candidate paths exists. *)
Theorem warning_iff_no_font (fs : gmap string image) :
  makedirs_error E (iconset_dir E) = None ->
  (In (EStderr "Warning: No monospace font found, using default")
      (log (fst (run E fs)))
   <-> Forall (fun q => path_exists E q = false) candidates).
Proof.
  intros Hdir.
  assert (Hwarn : In (EStderr "Warning: No monospace font found, using default")
                     (warning E)
                  <-> Forall (fun q => path_exists E q = false) candidates).
  { rewrite <- first_existing_None. fold (find_monospace_font E).
    rewrite <- truthy_find_monospace_font. unfold warning.
    destruct (truthy (find_monospace_font E)); cbn [negb In].
    - split; [intros [] | discriminate].
    - split; [reflexivity | intros _; left; reflexivity]. }
  rewrite <- Hwarn.
  unfold run. rewrite main_trace_correct. cbn [fst snd extend log app].
  assert (Hfront : forall rest,
            ~ In (EStderr "Warning: No monospace font found, using default") rest ->
            In (EStderr "Warning: No monospace font found, using default")
               (EMakedirs (iconset_dir E) :: warning E
                ++ fst (batch_trace E (find_monospace_font E) ICON_SIZES)
                ++ rest)
            <-> In (EStderr "Warning: No monospace font found, using default")
                   (warning E)).
  { intros rest Hrest. split.
    - intros [H | H]; [discriminate |].
      apply in_app_or in H as [H | H]; [exact H |].
      apply in_app_or in H as [H | H]; [| contradiction].
      exfalso. exact (batch_only_writes _ _ _ H).
    - intros H. right. apply in_or_app. left. exact H. }
  destruct (main_trace_cases E)
    as [(e & He & _) | [(e & _ & Hmt) | [(e & _ & _ & Hmt)
       | [(rc & err & _ & _ & _ & Hmt) | (err & _ & _ & Hmt)]]]];
    [congruence | | | |]; rewrite Hmt; cbn [fst].
  - rewrite <- (app_nil_r (fst _)). apply Hfront. intros [].
  - apply Hfront. intros [H | []]. discriminate.
  - apply Hfront. intros [H | [H | [H | []]]]; discriminate.
  - apply Hfront. intros [H | [H | [H | []]]]; discriminate.
Qed.

End Diagnostics.

Lemma warning_iff_no_font_witness :
  makedirs_error no_fonts (iconset_dir no_fonts) = None
  /\ (In (EStderr "Warning: No monospace font found, using default")
         (log (fst (run no_fonts ∅)))
      <-> Forall (fun q => path_exists no_fonts q = false) candidates).
Proof.
  split; [reflexivity |].
  apply (warning_iff_no_font no_fonts ∅). reflexivity.
Defined.

(** ** Runs that fail *)

Section Failures.
Variable E : env.



Lemma font_size_16 : font_size 16 = Ok 8.
Proof. vm_compute. reflexivity. Qed.

(** X5. When loading the font at size 8, for the first icon, fails with
    an error that is not an [OSError], the run ends with that error
    right after the directory is made and the warning, if any, is
    printed: no image is written, the tool is not run and the disk is
    unchanged. *)
Theorem font_error_aborts_run (fs : gmap string image) (e : exn) :
  makedirs_error E (iconset_dir E) = None ->
  truetype E (find_monospace_font E) 8 = Raise e ->
  is_OSError e = false ->
  snd (run E fs) = Raise e
  /\ log (fst (run E fs)) = EMakedirs (iconset_dir E) :: warning E
  /\ written (log (fst (run E fs))) = []
  /\ runs (log (fst (run E fs))) = []
  /\ files (fst (run E fs)) = fs.
Proof.
  intros Hdir Hload He.
  assert (Hrender : render_icon E 16 (find_monospace_font E) = Raise e).
  { unfold render_icon. rewrite Image_new_blank by lia.
    cbn [mbind result_bind]. rewrite font_size_16. cbn [mbind result_bind].
    unfold load_font. rewrite Hload, He. reflexivity. }
  assert (Hbatch : batch_trace E (find_monospace_font E) ICON_SIZES
                   = ([], Raise e)).
  { unfold ICON_SIZES. cbn [batch_trace]. rewrite Hrender. reflexivity. }
  assert (Hmt : main_trace E
                = (EMakedirs (iconset_dir E) :: warning E, Raise e)).
  { unfold main_trace. rewrite Hdir, Hbatch, app_nil_r. reflexivity. }
  unfold run. rewrite main_trace_correct, Hmt.
  cbn [fst snd extend log files app].
  destruct (warning_quiet E) as [Hw Hr].
  split; [reflexivity |]. split; [reflexivity |].
  split; [exact Hw |]. split; [exact Hr |].
  unfold warning. destruct (negb _); reflexivity.
Qed.

(** X7. When the packaging tool cannot be started, the run ends with the
    error of starting it, after all ten images were written; the last
    thing it did is print the [Creating] line, and no run of the tool is
    recorded. *)
Theorem tool_not_started (fs : gmap string image) (e : exn) :
  makedirs_error E (iconset_dir E) = None ->
  (forall path, write_error E path = None) ->
  (forall fsize e',
     truetype E (find_monospace_font E) fsize = Raise e' ->
     is_OSError e' = true) ->
  iconutil E (iconutil_argv E) = Raise e ->
  snd (run E fs) = Raise e
  /\ written (log (fst (run E fs))) = expected_outputs E ICON_SIZES
  /\ runs (log (fst (run E fs))) = []
  /\ last (log (fst (run E fs)))
     = Some (EStdout ("  Creating " +:+ icns_path E)).
Proof.
  intros Hdir Hwrite Hload Htool.
  assert (Hbatch : snd (batch_trace E (find_monospace_font E) ICON_SIZES)
                   = Ok tt).
  { apply batch_trace_completes; [| exact Hwrite].
    intros filename size Hin. eapply render_icon_total; eassumption. }
  destruct (batch_trace_writes E _ _ Hbatch) as [Hwritten _].
  unfold run. rewrite main_trace_correct. cbn [fst snd extend log app].
  destruct (main_trace_cases E)
    as [(e' & He & _) | [(e' & He & _) | [(e' & _ & He & Hmt)
       | [(rc & err & _ & He & _) | (err & _ & He & _)]]]];
    try congruence.
  rewrite Hmt. cbn [fst snd].
  split; [congruence |].
  split; [rewrite written_before_packaging, Hwritten; apply app_nil_r |].
  split; [rewrite runs_before_packaging; reflexivity |].
  rewrite app_comm_cons, !app_assoc. apply last_snoc.
Qed.

End Failures.

Lemma font_error_aborts_run_witness :
  makedirs_error no_fonts (iconset_dir no_fonts) = None
  /\ truetype no_fonts (find_monospace_font no_fonts) 8 = Raise AttributeError
  /\ is_OSError AttributeError = false
  /\ snd (run no_fonts ∅) = Raise AttributeError
  /\ log (fst (run no_fonts ∅))
     = EMakedirs (iconset_dir no_fonts) :: warning no_fonts
  /\ written (log (fst (run no_fonts ∅))) = []
  /\ runs (log (fst (run no_fonts ∅))) = []
  /\ files (fst (run no_fonts ∅)) = ∅.
Proof.
  split; [reflexivity |]. split; [reflexivity |]. split; [reflexivity |].
  apply (font_error_aborts_run no_fonts ∅ AttributeError); reflexivity.
Defined.


Lemma tool_not_started_witness :
  makedirs_error mac_no_iconutil (iconset_dir mac_no_iconutil) = None
  /\ (forall path, write_error mac_no_iconutil path = None)
  /\ iconutil mac_no_iconutil (iconutil_argv mac_no_iconutil)
     = Raise FileNotFoundError
  /\ snd (run mac_no_iconutil ∅) = Raise FileNotFoundError
  /\ written (log (fst (run mac_no_iconutil ∅)))
     = expected_outputs mac_no_iconutil ICON_SIZES
  /\ runs (log (fst (run mac_no_iconutil ∅))) = []
  /\ last (log (fst (run mac_no_iconutil ∅)))
     = Some (EStdout ("  Creating " +:+ icns_path mac_no_iconutil)).
Proof.
  split; [reflexivity |]. split; [reflexivity |]. split; [reflexivity |].
  apply (tool_not_started mac_no_iconutil ∅ FileNotFoundError);
    [reflexivity | reflexivity | | reflexivity].
  intros fsize e H. vm_compute in H. discriminate H.
Defined.

(** ** What a run prints *)

Section Reports.
Variable E : env.

(** The loop reports on standard output exactly the files it wrote. *)
Lemma batch_trace_reports (font_path : option string)
    (sizes : list (string * Z)) :
  exists done pending,
    sizes = done ++ pending
    /\ written (fst (batch_trace E font_path sizes)) = expected_outputs E done
    /\ stdout_lines (fst (batch_trace E font_path sizes))
       = map (fun entry => generated_line (fst entry) (snd entry)) done
    /\ (pending = [] <-> snd (batch_trace E font_path sizes) = Ok tt).
Proof.
  induction sizes as [| [f s] rest IH]; cbn [batch_trace].
  - exists [], []. repeat split.
  - destruct (render_icon E s font_path) as [img | e] eqn:Himg.
    2:{ exists [], ((f, s) :: rest). repeat split; discriminate. }
    destruct (write_error E (path_join (iconset_dir E) [f])).
    { exists [], ((f, s) :: rest). repeat split; discriminate. }
    destruct IH as (done & pending & Hsplit & Hwritten & Hout & Hend).
    destruct (batch_trace E font_path rest) as [events r]. cbn [fst snd] in *.
    exists ((f, s) :: done), pending.
    split; [rewrite Hsplit; reflexivity |].
    split.
    { rewrite written_write, written_stdout, Hwritten.
      apply (render_icon_size E) in Himg as [-> _]. reflexivity. }
    split; [| exact Hend].
    change (generated_line f s :: stdout_lines events
            = generated_line f s
              :: map (fun entry => generated_line (fst entry) (snd entry)) done).
    rewrite Hout. reflexivity.
Qed.

Lemma stdout_lines_app (l1 l2 : list event) :
  stdout_lines (l1 ++ l2) = stdout_lines l1 ++ stdout_lines l2.
Proof. apply omap_app. Qed.

Lemma warning_silent : stdout_lines (warning E) = [].
Proof. unfold warning. destruct (negb _); reflexivity. Qed.

(** X8. Standard output of every run is one [Generated] line for each
    image written, in list order, with the file name and the size twice,
    followed by nothing, by the [Creating] line, or by the [Creating]
    and the [App icon created] lines; the last two only after all images
    were written, the last only when [main] returns. *)
Theorem run_reports_written_files (fs : gmap string image) :
  exists done pending tail,
    ICON_SIZES = done ++ pending
    /\ written (log (fst (run E fs))) = expected_outputs E done
    /\ stdout_lines (log (fst (run E fs)))
       = map (fun entry =>
                "  Generated " +:+ fst entry +:+ " (" +:+ str (snd entry)
                +:+ "x" +:+ str (snd entry) +:+ ")") done ++ tail
    /\ (tail = []
        \/ pending = [] /\ tail = ["  Creating " +:+ icns_path E]
        \/ pending = [] /\ snd (run E fs) = Ok tt
           /\ tail = ["  Creating " +:+ icns_path E;
                      "  App icon created: " +:+ icns_path E]).
Proof.
  unfold run. rewrite main_trace_correct. cbn [fst snd extend log app].
  destruct (batch_trace_reports (find_monospace_font E) ICON_SIZES)
    as (done & pending & Hsplit & Hwritten & Hout & Hend).
  assert (Hlines : forall events,
            stdout_lines (EMakedirs (iconset_dir E) :: warning E
              ++ fst (batch_trace E (find_monospace_font E) ICON_SIZES)
              ++ events)
            = map (fun entry => generated_line (fst entry) (snd entry)) done
              ++ stdout_lines events).
  { intros events. change (EMakedirs ?d :: ?l) with ([EMakedirs d] ++ l).
    rewrite !stdout_lines_app, warning_silent, Hout. reflexivity. }
  destruct (main_trace_cases E)
    as [(e & _ & Hmt) | [(e & _ & Hmt) | [(e & Hb & _ & Hmt)
       | [(rc & err & Hb & _ & _ & Hmt) | (err & Hb & _ & Hmt)]]]];
    rewrite Hmt; cbn [fst snd].
  - exists [], ICON_SIZES, []. repeat split. left. reflexivity.
  - exists done, pending, []. split; [exact Hsplit |]. split.
    { rewrite <- (app_nil_r (fst _)), written_before_packaging, Hwritten.
      apply app_nil_r. }
    split; [| left; reflexivity].
    rewrite <- (app_nil_r (fst _)), Hlines. reflexivity.
  - exists done, pending, [creating_line E]. split; [exact Hsplit |]. split.
    { rewrite written_before_packaging, Hwritten. apply app_nil_r. }
    split; [rewrite Hlines; reflexivity |].
    right. left. split; [apply Hend; exact Hb | reflexivity].
  - exists done, pending, [creating_line E]. split; [exact Hsplit |]. split.
    { rewrite written_before_packaging, Hwritten. apply app_nil_r. }
    split; [rewrite Hlines; reflexivity |].
    right. left. split; [apply Hend; exact Hb | reflexivity].
  - exists done, pending, [creating_line E; created_line E].
    split; [exact Hsplit |]. split.
    { rewrite written_before_packaging, Hwritten. apply app_nil_r. }
    split; [rewrite Hlines; reflexivity |].
    right. right. split; [apply Hend; exact Hb |].
    split; reflexivity.
Qed.

End Reports.

(** ** The colours of the pixels *)

Section Ink.
Variable E : env.



End Ink.


(** ** The exit status *)

Section Status.
Variable E : env.

(** On the sizes of the list the renderer can only fail in loading the
    font. *)
Lemma render_icon_error (size : Z) (font_path : option string) (e : exn) :
  0 <= size < 2 ^ 48 ->
  render_icon E size font_path = Raise e ->
  exists fsize, truetype E font_path fsize = Raise e /\ is_OSError e = false.
Proof.
  intros Hsize. unfold render_icon.
  rewrite Image_new_blank by lia. cbn [mbind result_bind].
  rewrite font_size_truncates by lia. cbn [mbind result_bind].
  unfold load_font.
  destruct (truetype E font_path _) as [f | e'] eqn:Hload;
    cbn [mbind result_bind]; [discriminate |].
  destruct (is_OSError e') eqn:He'; cbn [mbind result_bind]; [discriminate |].
  intros [= <-]. eexists. split; [exact Hload | exact He'].
Qed.

Lemma batch_trace_error (font_path : option string)
    (sizes : list (string * Z)) (e : exn) :
  (forall f s, In (f, s) sizes -> 0 <= s < 2 ^ 48) ->
  snd (batch_trace E font_path sizes) = Raise e ->
  (exists fsize, truetype E font_path fsize = Raise e /\ is_OSError e = false)
  \/ (exists f s, In (f, s) sizes
        /\ write_error E (path_join (iconset_dir E) [f]) = Some e).
Proof.
  induction sizes as [| [f s] rest IH]; cbn [batch_trace]; [discriminate |].
  intros Hsizes.
  destruct (render_icon E s font_path) as [img | e'] eqn:Himg.
  - destruct (write_error E (path_join (iconset_dir E) [f])) as [e' |] eqn:Hw.
    + intros [= <-]. right. exists f, s. split; [left; reflexivity | exact Hw].
    + destruct (batch_trace E font_path rest) as [events r]. cbn [snd] in *.
      intros Hr. destruct IH as [H | (f' & s' & Hin & H)];
        [intros f' s' H; apply (Hsizes f' s'); right; exact H | exact Hr | |].
      * left. exact H.
      * right. exists f', s'. split; [right; exact Hin | exact H].
  - intros [= <-]. left. apply (render_icon_error s); [| exact Himg].
    apply (Hsizes f s). left. reflexivity.
Qed.

(** X15. When no call to the system raises [SystemExit], the exit
    status of the program is 0 exactly when [main] returns, which needs
    the tool to have given exit code 0, and it is 1 on every failure:
    of making the directory, loading the font, writing an image,
    starting the tool, or the tool's non-zero exit code. *)
Theorem exit_status_0_or_1 (fs : gmap string image) :
  (forall c, makedirs_error E (iconset_dir E) <> Some (SystemExit c)) ->
  (forall path c, write_error E path <> Some (SystemExit c)) ->
  (forall fsize c,
     truetype E (find_monospace_font E) fsize <> Raise (SystemExit c)) ->
  (forall c, iconutil E (iconutil_argv E) <> Raise (SystemExit c)) ->
  (snd (run E fs) = Ok tt /\ exit_status (snd (run E fs)) = 0
   /\ exists err, iconutil E (iconutil_argv E) = Ok (0, err))
  \/ ((exists e, snd (run E fs) = Raise e)
      /\ exit_status (snd (run E fs)) = 1).
Proof.
  intros Hdir Hwrite Hload Htool.
  assert (Hstatus : forall e, (forall c, e <> SystemExit c) ->
            exit_status (Raise e) = 1).
  { intros e He. destruct e; try reflexivity. exfalso. exact (He _ eq_refl). }
  unfold run. rewrite main_trace_correct. cbn [fst snd].
  destruct (main_trace_cases E)
    as [(e & He & Hmt) | [(e & He & Hmt) | [(e & _ & He & Hmt)
       | [(rc & err & _ & _ & _ & Hmt) | (err & _ & He & Hmt)]]]];
    rewrite Hmt; cbn [snd].
  - right. split; [eexists; reflexivity |]. apply Hstatus.
    intros c ->. exact (Hdir c He).
  - right. split; [eexists; reflexivity |]. apply Hstatus.
    intros c ->.
    apply batch_trace_error in He
      as [(fsize & H & _) | (f & s & _ & H)].
    + exact (Hload fsize c H).
    + exact (Hwrite _ c H).
    + intros f s Hin. pose proof (ICON_SIZES_bounds f s Hin). lia.
  - right. split; [eexists; reflexivity |]. apply Hstatus.
    intros c ->. exact (Htool c He).
  - right. split; [eexists; reflexivity | reflexivity].
  - left. split; [reflexivity |]. split; [reflexivity |].
    exists err. exact He.
Qed.

End Status.

Lemma exit_status_0_or_1_witness :
  (snd (run mac_disk_full ∅) = Ok tt
   /\ exit_status (snd (run mac_disk_full ∅)) = 0
   /\ exists err,
        iconutil mac_disk_full (iconutil_argv mac_disk_full) = Ok (0, err))
  \/ ((exists e, snd (run mac_disk_full ∅) = Raise e)
      /\ exit_status (snd (run mac_disk_full ∅)) = 1).
Proof.
  apply (exit_status_0_or_1 mac_disk_full ∅).
  - intros c H. discriminate H.
  - intros path c H. unfold mac_disk_full, write_error in H.
    destruct (String.eqb path _); discriminate H.
  - intros fsize c H. vm_compute in H. discriminate H.
  - intros c H. discriminate H.
Defined.
